(** * Conversation and job session manager of the Power BI chat front end

    A shallow embedding of the React component [App] (frontend/src/App.js)
    and of its themed variant (the second copy of the component in the
    repository), together with the properties of the session state machine:
    guarded sends, conversation loading, staged files, dashboard jobs and
    the job-status poll timer.

    The component is event driven.  Every handler is an [async] function: it
    runs synchronously up to its next [await], and the part after the
    [await] runs when the HTTP response arrives.  A handler reads the state
    variables of the render it was created in (its closure), while the
    setters returned by [useState] act on the latest state.  Both aspects
    are kept: handlers are functions from the state of their render to a
    [Proc], a tree of setter calls and HTTP requests, and the runtime applies
    setters to the current state and parks each continuation until a
    response is delivered. *)

From stdpp Require Import strings list.
From Stdlib Require Import Ascii.

Local Open Scope stdpp_scope.

(** ** JavaScript strings and truthiness *)

Module Js.

(** [String.prototype.trim] strips white space and line terminators; the
    model covers the ASCII ones (tab, line feed, vertical tab, form feed,
    carriage return, space). *)
Definition is_space (c : ascii) : bool :=
  match nat_of_ascii c with
  | 9 | 10 | 11 | 12 | 13 | 32 => true
  | _ => false
  end.

Fixpoint trimStart (s : string) : string :=
  match s with
  | EmptyString => EmptyString
  | String c s' => if is_space c then trimStart s' else s
  end.

Fixpoint trimEnd (s : string) : string :=
  match s with
  | EmptyString => EmptyString
  | String c s' =>
      match trimEnd s' with
      | EmptyString => if is_space c then EmptyString else String c EmptyString
      | t => String c t
      end
  end.

Definition trim (s : string) : string := trimEnd (trimStart s).

(** [toLowerCase] on the ASCII letters; other characters are kept. *)
Definition lower_char (c : ascii) : ascii :=
  let n := nat_of_ascii c in
  if (65 <=? n) && (n <=? 90) then ascii_of_nat (n + 32) else c.

Fixpoint toLowerCase (s : string) : string :=
  match s with
  | EmptyString => EmptyString
  | String c s' => String (lower_char c) (toLowerCase s')
  end.

(** [s.includes(sub)]: [sub] occurs in [s] at some position. *)
Fixpoint includes (s sub : string) : bool :=
  String.prefix sub s
  || match s with
     | EmptyString => false
     | String _ s' => includes s' sub
     end.

(** [name.split('.').pop()]: the part after the last dot, the whole string
    when there is none. *)
Fixpoint last_segment (acc s : string) : string :=
  match s with
  | EmptyString => acc
  | String c s' =>
      if Ascii.eqb c "."%char then last_segment EmptyString s'
      else last_segment (acc +:+ String c EmptyString) s'
  end.

Definition split_dot_pop (s : string) : string := last_segment EmptyString s.

(** Truthiness of a string, and of a value that is a string, [null] or
    [undefined] ([None] stands for the latter two). *)
Definition truthy (s : string) : bool := negb (String.eqb s "").

Definition truthy_opt (o : option string) : bool :=
  match o with
  | Some s => truthy s
  | None => false
  end.

(** [a || b] on such values. *)
Definition or_else (a : option string) (b : string) : string :=
  match a with
  | Some s => if truthy s then s else b
  | None => b
  end.

(** [`${v}`] for a value that may be [undefined]. *)
Definition template (o : option string) : string :=
  match o with
  | Some s => s
  | None => "undefined"
  end.

(** [a === b] where [a] may be [null] and [b] is a string. *)
Definition strict_eq (a : option string) (b : string) : bool :=
  match a with
  | Some s => String.eqb s b
  | None => false
  end.

End Js.

(** ** JavaScript objects used as maps *)

(** An object with string keys.  The entries are kept in the order in which
    the keys were created, which is the order [Object.keys] lists them in
    (for keys that are not array indices). *)
Definition JsObject (V : Type) : Type := list (string * V).

(** [{...o, [k]: v}]: an existing key keeps its place. *)
Fixpoint obj_set {V : Type} (k : string) (v : V) (o : JsObject V) : JsObject V :=
  match o with
  | [] => [(k, v)]
  | (k', v') :: o' =>
      if String.eqb k' k then (k', v) :: o' else (k', v') :: obj_set k v o'
  end.

(** [delete o[k]] on a copy of [o]. *)
Fixpoint obj_delete {V : Type} (k : string) (o : JsObject V) : JsObject V :=
  match o with
  | [] => []
  | (k', v') :: o' =>
      if String.eqb k' k then obj_delete k o' else (k', v') :: obj_delete k o'
  end.

(** [o[k]]. *)
Fixpoint obj_get {V : Type} (k : string) (o : JsObject V) : option V :=
  match o with
  | [] => None
  | (k', v') :: o' => if String.eqb k' k then Some v' else obj_get k o'
  end.

(** [Object.keys(o)]. *)
Definition Object_keys {V : Type} (o : JsObject V) : list string := map fst o.

(** ** Objects exchanged with the server and kept in the state *)

Definition Timestamp := string.

(** A chat message.  [error] and [completed] are the optional flags; an
    absent flag is [false]. *)
Record Message := {
  role : string;
  content : option string;
  timestamp : Timestamp;
  msg_dashboard_url : option string;
  msg_download_link : option string;
  error : bool;
  completed : bool;
}.

Record Conversation := {
  conv_id : string;
  title : string;
  message_count : nat;
  updated_at : Timestamp;
}.

(** A staged file.  App.js builds [{name, path, type, uploadTime}], the
    themed variant [{filename, uploadTime}]; the file list of a loaded
    conversation comes from the server.  Absent fields are [None]. *)
Record FileObj := {
  name : option string;
  filename : option string;
  path : option string;
  type : option string;
  uploadTime : option Timestamp;
}.

(** The value kept for a job id: first the entry made by [sendMessage], later
    the body of the last job-status response. *)
Record Job := {
  job_conversation_id : option string;
  status : option string;
  progress : option nat;
  response : option string;
  dashboard_url : option string;
  download_link : option string;
  job_error : option string;
}.

(** [response.data] of an HTTP response: a JSON object of which the handlers
    read the fields below; a field the server did not send is [None].  The
    job fields are read as a whole (a job-status response is stored as it
    is), hence [data_job]. *)
Record Data := {
  data_conversations : option (list Conversation);
  data_messages : option (list Message);
  data_files : option (list FileObj);
  data_response : option string;
  data_conversation_id : option string;
  data_dashboard_url : option string;
  data_download_link : option string;
  data_file_names : option (list string);
  data_job_id : option string;
  data_job : Job;
}.

(** Builders for the bodies the server sends. *)
Definition empty_job : Job := {|
  job_conversation_id := None;
  status := None;
  progress := None;
  response := None;
  dashboard_url := None;
  download_link := None;
  job_error := None;
|}.

Definition empty_data : Data := {|
  data_conversations := None;
  data_messages := None;
  data_files := None;
  data_response := None;
  data_conversation_id := None;
  data_dashboard_url := None;
  data_download_link := None;
  data_file_names := None;
  data_job_id := None;
  data_job := empty_job;
|}.

Definition chat_data (text : string) (conversation_id : option string) : Data := {|
  data_conversations := None;
  data_messages := None;
  data_files := None;
  data_response := Some text;
  data_conversation_id := conversation_id;
  data_dashboard_url := None;
  data_download_link := None;
  data_file_names := None;
  data_job_id := None;
  data_job := empty_job;
|}.

Definition upload_data (names : list string) (conversation_id : option string) : Data := {|
  data_conversations := None;
  data_messages := None;
  data_files := None;
  data_response := None;
  data_conversation_id := conversation_id;
  data_dashboard_url := None;
  data_download_link := None;
  data_file_names := Some names;
  data_job_id := None;
  data_job := empty_job;
|}.

Definition dashboard_data (job_id : string) : Data := {|
  data_conversations := None;
  data_messages := None;
  data_files := None;
  data_response := None;
  data_conversation_id := None;
  data_dashboard_url := None;
  data_download_link := None;
  data_file_names := None;
  data_job_id := Some job_id;
  data_job := empty_job;
|}.

Definition job_status_data (job : Job) : Data := {|
  data_conversations := None;
  data_messages := None;
  data_files := None;
  data_response := response job;
  data_conversation_id := None;
  data_dashboard_url := dashboard_url job;
  data_download_link := download_link job;
  data_file_names := None;
  data_job_id := None;
  data_job := job;
|}.

Definition conversation_data (msgs : list Message) : Data := {|
  data_conversations := None;
  data_messages := Some msgs;
  data_files := None;
  data_response := None;
  data_conversation_id := None;
  data_dashboard_url := None;
  data_download_link := None;
  data_file_names := None;
  data_job_id := None;
  data_job := empty_job;
|}.

Definition conversations_data (convs : list Conversation) : Data := {|
  data_conversations := Some convs;
  data_messages := None;
  data_files := None;
  data_response := None;
  data_conversation_id := None;
  data_dashboard_url := None;
  data_download_link := None;
  data_file_names := None;
  data_job_id := None;
  data_job := empty_job;
|}.

(** What a rejected axios promise carries: [error.response?.data?.detail]
    and [error.response?.status]. *)
Record HttpError := {
  err_detail : option string;
  err_status : option nat;
}.

Inductive Result :=
| Ok (d : Data)
| Err (e : HttpError).

(** The HTTP calls of the component (all under [/api]). *)
Inductive Request :=
| GetConversations
| GetConversation (id : string)
| GetConversationFiles (id : string)
| DeleteConversation (id : string)
| PostChat (message : string) (conversation_id : option string)
| PostUpload (files : list string) (conversation_id : option string)
| PostCreateDashboard (message : string) (conversation_id : option string)
    (file_paths : list (option string))
| GetJobStatus (job_id : string).

(** ** Asynchronous handlers and their runtime *)

Section Runtime.

(** [St] is the React state of a component, [Upd] the calls of its
    [useState] setters and [apply] their effect on the state. *)
Context {St Upd : Type} (apply : Upd -> St -> St).

(** The body of an async handler.
    - [Do u k]: call a setter, go on;
    - [Now k]: [new Date().toISOString()];
    - [Await r k]: [await axios...]: the request is sent and the handler is
      suspended; [k] is resumed with the outcome ([Err] is the rejected
      promise, handled by the enclosing [catch]);
    - [Fork p k]: call the async function [p] without awaiting it. *)
Inductive Proc :=
| Done
| Do (u : Upd) (k : Proc)
| Now (k : Timestamp -> Proc)
| Await (r : Request) (k : Result -> Proc)
| Fork (p : Proc) (k : Proc).

(** A suspended handler. *)
Record Task := { task_request : Request; task_resume : Result -> Proc }.

(** The component between two events: its state, the wall clock, the
    suspended handlers and the history of the requests sent. *)
Record World := {
  state : St;
  clock : Timestamp;
  pending : list Task;
  sent : list Request;
}.

(** Run a handler body up to the point where it is suspended or done. *)
Fixpoint run (p : Proc) (w : World) : World :=
  match p with
  | Done => w
  | Do u k =>
      run k {| state := apply u (state w); clock := clock w;
               pending := pending w; sent := sent w |}
  | Now k => run (k (clock w)) w
  | Await r k =>
      {| state := state w; clock := clock w;
         pending := pending w ++ [{| task_request := r; task_resume := k |}];
         sent := sent w ++ [r] |}
  | Fork p k => run k (run p w)
  end.

(** The response to the [i]-th suspended handler arrives. *)
Definition deliver (i : nat) (res : Result) (w : World) : World :=
  match pending w !! i with
  | Some t =>
      run (task_resume t res)
        {| state := state w; clock := clock w;
           pending := delete i (pending w); sent := sent w |}
  | None => w
  end.

(** The response to the request sent last arrives. *)
Definition deliver_last (res : Result) (w : World) : World :=
  deliver (pred (length (pending w))) res w.

(** Time passes. *)
Definition advance (t : Timestamp) (w : World) : World :=
  {| state := state w; clock := t; pending := pending w; sent := sent w |}.

(** All setter calls a handler body can make satisfy [P]. *)
Inductive all_updates (P : Upd -> Prop) : Proc -> Prop :=
| au_Done : all_updates P Done
| au_Do u k : P u -> all_updates P k -> all_updates P (Do u k)
| au_Now k : (forall t, all_updates P (k t)) -> all_updates P (Now k)
| au_Await r k : (forall res, all_updates P (k res)) -> all_updates P (Await r k)
| au_Fork p k : all_updates P p -> all_updates P k -> all_updates P (Fork p k).

(** A suspended handler all of whose later setter calls satisfy [P]. *)
Definition task_ok (P : Upd -> Prop) (t : Task) : Prop :=
  forall res, all_updates P (task_resume t res).

(** The requests sent between [w] and a later [w']. *)
Definition new_requests (w w' : World) : list Request :=
  drop (length (sent w)) (sent w').

End Runtime.

Arguments Proc : clear implicits.
Arguments Task : clear implicits.
Arguments World : clear implicits.

(** ** Answering a handler step by step *)

Section Answers.

Context {St Upd : Type} (apply : Upd -> St -> St).

(** The responses [rs] arrive one after the other, each for the request that
    was sent last. *)
Definition deliver_each (rs : list Result) (w : World St Upd) : World St Upd :=
  foldl (fun w res => deliver_last apply res w) w rs.

End Answers.

(** ** Characters of a string *)

Module Chars.




(** Every character of [s] is white space. *)
Fixpoint is_blank (s : string) : bool :=
  match s with
  | EmptyString => true
  | String c s' => Js.is_space c && is_blank s'
  end.

(** The last character of a text is not white space. *)
Fixpoint ends_solid (s : string) : bool :=
  match s with
  | EmptyString => false
  | String a EmptyString => negb (Js.is_space a)
  | String _ s' => ends_solid s'
  end.

End Chars.

(** ** The requests of a handler body *)

Section Requests.

Context {Upd : Type}.

(** All requests a handler body can send, at any stage, satisfy [Q]. *)
Inductive all_requests (Q : Request -> Prop) : Proc Upd -> Prop :=
| ar_Done : all_requests Q Done
| ar_Do u k : all_requests Q k -> all_requests Q (Do u k)
| ar_Now k : (forall t, all_requests Q (k t)) -> all_requests Q (Now k)
| ar_Await r k :
    Q r -> (forall res, all_requests Q (k res)) -> all_requests Q (Await r k)
| ar_Fork p k : all_requests Q p -> all_requests Q k -> all_requests Q (Fork p k).

(** The number of suspended handlers that wait for a request of kind [p]. *)
Fixpoint count_tasks (p : Request -> bool) (l : list (Task Upd)) : nat :=
  match l with
  | [] => 0
  | t :: l' => (if p (task_request t) then 1 else 0) + count_tasks p l'
  end.

End Requests.
(** ** The component of frontend/src/App.js *)

Module App.

(** The [useState] variables of [App].  The setters are always given a
    freshly built object for [activeJobs]; the effect that depends on
    [activeJobs] compares object identities, so the state carries the
    identity of the current object in [activeJobs_id]. *)
Record State := {
  conversations : list Conversation;
  currentConversationId : option string;
  messages : list Message;
  inputMessage : string;
  isLoading : bool;
  uploadedFiles : list FileObj;
  isDragging : bool;
  activeJobs : JsObject Job;
  activeJobs_id : nat;
  sidebarOpen : bool;
  loadingConversation : bool;
}.

(** [useState] initial values. *)
Definition initial_state : State := {|
  conversations := [];
  currentConversationId := None;
  messages := [];
  inputMessage := "";
  isLoading := false;
  uploadedFiles := [];
  isDragging := false;
  activeJobs := [];
  activeJobs_id := 0;
  sidebarOpen := true;
  loadingConversation := false;
|}.

(** The setter calls: with a new value, or with an updater of the previous
    value ([setX(prev => ...)]). *)
Inductive Update :=
| SetConversations (f : list Conversation -> list Conversation)
| SetCurrentConversationId (v : option string)
| SetMessages (f : list Message -> list Message)
| SetInputMessage (v : string)
| SetIsLoading (v : bool)
| SetUploadedFiles (f : list FileObj -> list FileObj)
| SetIsDragging (v : bool)
| SetActiveJobs (f : JsObject Job -> JsObject Job)
| SetSidebarOpen (v : bool)
| SetLoadingConversation (v : bool).

Definition apply_update (u : Update) (s : State) : State :=
  match u with
  | SetConversations f =>
      {| conversations := f (conversations s);
         currentConversationId := currentConversationId s;
         messages := messages s; inputMessage := inputMessage s;
         isLoading := isLoading s; uploadedFiles := uploadedFiles s;
         isDragging := isDragging s; activeJobs := activeJobs s;
         activeJobs_id := activeJobs_id s; sidebarOpen := sidebarOpen s;
         loadingConversation := loadingConversation s |}
  | SetCurrentConversationId v =>
      {| conversations := conversations s;
         currentConversationId := v;
         messages := messages s; inputMessage := inputMessage s;
         isLoading := isLoading s; uploadedFiles := uploadedFiles s;
         isDragging := isDragging s; activeJobs := activeJobs s;
         activeJobs_id := activeJobs_id s; sidebarOpen := sidebarOpen s;
         loadingConversation := loadingConversation s |}
  | SetMessages f =>
      {| conversations := conversations s;
         currentConversationId := currentConversationId s;
         messages := f (messages s); inputMessage := inputMessage s;
         isLoading := isLoading s; uploadedFiles := uploadedFiles s;
         isDragging := isDragging s; activeJobs := activeJobs s;
         activeJobs_id := activeJobs_id s; sidebarOpen := sidebarOpen s;
         loadingConversation := loadingConversation s |}
  | SetInputMessage v =>
      {| conversations := conversations s;
         currentConversationId := currentConversationId s;
         messages := messages s; inputMessage := v;
         isLoading := isLoading s; uploadedFiles := uploadedFiles s;
         isDragging := isDragging s; activeJobs := activeJobs s;
         activeJobs_id := activeJobs_id s; sidebarOpen := sidebarOpen s;
         loadingConversation := loadingConversation s |}
  | SetIsLoading v =>
      {| conversations := conversations s;
         currentConversationId := currentConversationId s;
         messages := messages s; inputMessage := inputMessage s;
         isLoading := v; uploadedFiles := uploadedFiles s;
         isDragging := isDragging s; activeJobs := activeJobs s;
         activeJobs_id := activeJobs_id s; sidebarOpen := sidebarOpen s;
         loadingConversation := loadingConversation s |}
  | SetUploadedFiles f =>
      {| conversations := conversations s;
         currentConversationId := currentConversationId s;
         messages := messages s; inputMessage := inputMessage s;
         isLoading := isLoading s; uploadedFiles := f (uploadedFiles s);
         isDragging := isDragging s; activeJobs := activeJobs s;
         activeJobs_id := activeJobs_id s; sidebarOpen := sidebarOpen s;
         loadingConversation := loadingConversation s |}
  | SetIsDragging v =>
      {| conversations := conversations s;
         currentConversationId := currentConversationId s;
         messages := messages s; inputMessage := inputMessage s;
         isLoading := isLoading s; uploadedFiles := uploadedFiles s;
         isDragging := v; activeJobs := activeJobs s;
         activeJobs_id := activeJobs_id s; sidebarOpen := sidebarOpen s;
         loadingConversation := loadingConversation s |}
  | SetActiveJobs f =>
      {| conversations := conversations s;
         currentConversationId := currentConversationId s;
         messages := messages s; inputMessage := inputMessage s;
         isLoading := isLoading s; uploadedFiles := uploadedFiles s;
         isDragging := isDragging s; activeJobs := f (activeJobs s);
         activeJobs_id := S (activeJobs_id s); sidebarOpen := sidebarOpen s;
         loadingConversation := loadingConversation s |}
  | SetSidebarOpen v =>
      {| conversations := conversations s;
         currentConversationId := currentConversationId s;
         messages := messages s; inputMessage := inputMessage s;
         isLoading := isLoading s; uploadedFiles := uploadedFiles s;
         isDragging := isDragging s; activeJobs := activeJobs s;
         activeJobs_id := activeJobs_id s; sidebarOpen := v;
         loadingConversation := loadingConversation s |}
  | SetLoadingConversation v =>
      {| conversations := conversations s;
         currentConversationId := currentConversationId s;
         messages := messages s; inputMessage := inputMessage s;
         isLoading := isLoading s; uploadedFiles := uploadedFiles s;
         isDragging := isDragging s; activeJobs := activeJobs s;
         activeJobs_id := activeJobs_id s; sidebarOpen := sidebarOpen s;
         loadingConversation := v |}
  end.

Local Abbreviation Proc := (Proc Update).
Local Abbreviation World := (World State Update).
Local Abbreviation run := (run apply_update).
Local Abbreviation deliver := (deliver apply_update).
Local Abbreviation deliver_last := (deliver_last apply_update).

(** [if (c) { body }] followed by the rest of the function. *)
Definition when (c : bool) (body : Proc -> Proc) (k : Proc) : Proc :=
  if c then body k else k.

(** *** Conversations *)

(** [loadConversations] (lines 59-67). *)
Definition loadConversations : Proc :=
  Await GetConversations (fun res =>
    match res with
    | Ok d =>
        Do (SetConversations (fun _ => default [] (data_conversations d))) Done
    | Err _ =>
        Do (SetConversations (fun _ => [])) Done
    end).

(** [loadConversation] (lines 70-99). *)
Definition loadConversation (st : State) (conversationId : string) : Proc :=
  if loadingConversation st then Done else
  let finally_ := Do (SetLoadingConversation false) Done in
  Do (SetLoadingConversation true)
  (Await (GetConversation conversationId) (fun res =>
    match res with
    | Ok d =>
        match data_messages d with
        | Some msgs =>
            Do (SetMessages (fun _ => msgs))
            (Do (SetCurrentConversationId (Some conversationId))
            (Await (GetConversationFiles conversationId) (fun fres =>
              match fres with
              | Ok fd =>
                  match data_files fd with
                  | Some fs => Do (SetUploadedFiles (fun _ => fs)) finally_
                  | None => finally_
                  end
              | Err _ => Do (SetUploadedFiles (fun _ => [])) finally_
              end)))
        | None => finally_
        end
    | Err _ =>
        Do (SetMessages (fun _ => []))
        (Do (SetUploadedFiles (fun _ => [])) finally_)
    end)).

(** [startNewConversation] (lines 102-107). *)
Definition startNewConversation (k : Proc) : Proc :=
  Do (SetMessages (fun _ => []))
  (Do (SetUploadedFiles (fun _ => []))
  (Do (SetCurrentConversationId (Some ""))
  (Do (SetActiveJobs (fun _ => [])) k))).

(** [deleteConversation] (lines 110-122). *)
Definition deleteConversation (st : State) (conversationId : string) : Proc :=
  Await (DeleteConversation conversationId) (fun res =>
    match res with
    | Ok _ =>
        Do (SetConversations
              (filter (fun conv => negb (String.eqb (conv_id conv) conversationId))))
        (when (Js.strict_eq (currentConversationId st) conversationId)
           startNewConversation Done)
    | Err _ => Done
    end).

(** *** Sending a message *)

Definition user_message (text : string) (t : Timestamp) : Message := {|
  role := "user";
  content := Some text;
  timestamp := t;
  msg_dashboard_url := None;
  msg_download_link := None;
  error := false;
  completed := false;
|}.

Definition assistant_message (d : Data) (t : Timestamp) : Message := {|
  role := "assistant";
  content := data_response d;
  timestamp := t;
  msg_dashboard_url := data_dashboard_url d;
  msg_download_link := data_download_link d;
  error := false;
  completed := false;
|}.

Definition error_message (text : string) (t : Timestamp) : Message := {|
  role := "assistant";
  content := Some text;
  timestamp := t;
  msg_dashboard_url := None;
  msg_download_link := None;
  error := true;
  completed := false;
|}.

Definition send_error_text : string :=
  "Sorry, I encountered an error processing your request. Please try again.".

Definition upload_only_text : string :=
  "I have uploaded files for dashboard creation".

(** The test of lines 162-163 on the trimmed text. *)
Definition looks_like_dashboard_request (userMessage : string) : bool :=
  Js.includes (Js.toLowerCase userMessage) "dashboard"
  || Js.includes (Js.toLowerCase userMessage) "chart"
  || Js.includes (Js.toLowerCase userMessage) "visualization".

(** The entry made for a new job (lines 174-178). *)
Definition processing_job (conversation_id : option string) : Job := {|
  job_conversation_id := conversation_id;
  status := Some "processing";
  progress := Some 0;
  response := None;
  dashboard_url := None;
  download_link := None;
  job_error := None;
|}.

(** [sendMessage] (lines 126-198).  [inputMessage], [uploadedFiles] and
    [currentConversationId] are those of the render [st] the handler
    belongs to, also after the awaits. *)
Definition sendMessage (st : State) : Proc :=
  if negb (Js.truthy (Js.trim (inputMessage st)))
     && (length (uploadedFiles st) =? 0)
  then Done else
  let userMessage := Js.trim (inputMessage st) in
  let finally_ := Do (SetIsLoading false) Done in
  let catch_ :=
    Now (fun t =>
      Do (SetMessages (fun prev => prev ++ [error_message send_error_text t]))
      finally_) in
  Do (SetInputMessage "")
  (Do (SetIsLoading true)
  (when (Js.truthy userMessage)
     (fun k => Now (fun t =>
        Do (SetMessages (fun prev => prev ++ [user_message userMessage t])) k))
  (Await (PostChat (if Js.truthy userMessage then userMessage else upload_only_text)
                   (currentConversationId st))
    (fun res =>
      match res with
      | Err _ => catch_
      | Ok d =>
          Now (fun t =>
          Do (SetMessages (fun prev => prev ++ [assistant_message d t]))
          (Do (SetCurrentConversationId (data_conversation_id d))
          (if (0 <? length (uploadedFiles st))
              && looks_like_dashboard_request userMessage
           then
             Await (PostCreateDashboard userMessage (data_conversation_id d)
                      (map path (uploadedFiles st)))
               (fun dres =>
                 match dres with
                 | Err _ => catch_
                 | Ok dd =>
                     when (Js.truthy_opt (data_job_id dd))
                       (Do (SetActiveJobs (fun prev =>
                          obj_set (default "" (data_job_id dd))
                            (processing_job (data_conversation_id d)) prev)))
                     (Fork loadConversations finally_)
                 end)
           else Fork loadConversations finally_)))
      end)))).

(** The send button ([disabled] at line 586) and the text area ([disabled]
    at line 579, whose Enter key calls [sendMessage] through
    [handleKeyPress]). *)
Definition send_button_enabled (st : State) : bool :=
  negb (isLoading st
        || (negb (Js.truthy (Js.trim (inputMessage st)))
            && (length (uploadedFiles st) =? 0))).

Definition textarea_enabled (st : State) : bool := negb (isLoading st).

(** *** Uploading files *)

Definition uploaded_file (t : Timestamp) (file_name : string) : FileObj := {|
  name := Some file_name;
  filename := None;
  path := Some file_name;
  type := Some (Js.toLowerCase (Js.split_dot_pop file_name));
  uploadTime := Some t;
|}.

(** The text chosen in the [catch] of [handleFileUpload] (lines 240-248). *)
Definition upload_error_text (e : HttpError) : string :=
  if Js.truthy_opt (err_detail e)
  then "Upload failed: " +:+ Js.template (err_detail e)
  else match err_status e with
       | Some 413 => "File too large. Please upload files smaller than 100MB."
       | Some 400 =>
           "Invalid file format. Please upload CSV, Excel, JSON, TXT, or image files."
       | _ => "Error uploading files. Please try again."
       end.

(** An exception that is not an HTTP error ([error.response] is undefined). *)
Definition no_response : HttpError := {| err_detail := None; err_status := None |}.

(** [handleFileUpload] (lines 207-259).  [response.data.file_names.map]
    throws when the field is absent, which lands in the [catch]. *)
Definition handleFileUpload (st : State) (files : list string) : Proc :=
  let catch_ (e : HttpError) :=
    Now (fun t =>
      Do (SetMessages (fun prev => prev ++ [error_message (upload_error_text e) t]))
      Done) in
  Await (PostUpload files
           (if Js.truthy_opt (currentConversationId st)
            then currentConversationId st else None))
    (fun res =>
      match res with
      | Err e => catch_ e
      | Ok d =>
          match data_file_names d with
          | None => catch_ no_response
          | Some names =>
              Now (fun t =>
              Do (SetUploadedFiles (fun prev => prev ++ map (uploaded_file t) names))
              (Do (SetCurrentConversationId (data_conversation_id d)) Done))
          end
      end).

(** [handleDrop], [handleDragOver], [handleDragLeave] (lines 261-278). *)
Definition handleDrop (st : State) (files : list string) : Proc :=
  Do (SetIsDragging false)
  (if 0 <? length files then handleFileUpload st files else Done).

Definition handleDragOver : Proc := Do (SetIsDragging true) Done.

Definition handleDragLeave : Proc := Do (SetIsDragging false) Done.

(** The remove button of a staged file (line 543). *)
Definition removeStagedFile (index : nat) : Proc :=
  Do (SetUploadedFiles (fun prev => delete index prev)) Done.

(** *** Polling the jobs *)

Definition result_message (jobStatus : Job) (t : Timestamp) : Message := {|
  role := "assistant";
  content := response jobStatus;
  timestamp := t;
  msg_dashboard_url := dashboard_url jobStatus;
  msg_download_link := download_link jobStatus;
  error := false;
  completed := true;
|}.

(** [prev.some(msg => msg.completed && msg.content === jobStatus.response)]. *)
Definition hasCompletionMessage (prev : list Message) (jobStatus : Job) : bool :=
  existsb (fun msg => completed msg
                      && bool_decide (content msg = response jobStatus)) prev.

(** The updater of lines 302-312. *)
Definition add_completion (jobStatus : Job) (t : Timestamp)
    (prev : list Message) : list Message :=
  if negb (hasCompletionMessage prev jobStatus)
  then prev ++ [result_message jobStatus t]
  else prev.

(** The updater of lines 315-319 and 333-337. *)
Definition remove_job (jobId : string) (prev : JsObject Job) : JsObject Job :=
  obj_delete jobId prev.

Definition status_is (jobStatus : Job) (s : string) : bool :=
  Js.strict_eq (status jobStatus) s.

(** The body of the loop of [checkJobStatuses] after the status of [jobId]
    has been fetched (lines 284-342); [rest] is the remaining iterations. *)
Definition on_job_status (jobId : string) (rest : Proc) (res : Result) : Proc :=
  match res with
  | Err _ => rest
  | Ok d =>
      let jobStatus := data_job d in
      Do (SetActiveJobs (fun prev => obj_set jobId jobStatus prev))
      (when (status_is jobStatus "completed" && Js.truthy_opt (response jobStatus))
         (fun k => Now (fun t =>
            Do (SetMessages (add_completion jobStatus t))
            (Do (SetActiveJobs (remove_job jobId)) k)))
      (when (status_is jobStatus "error")
         (fun k => Now (fun t =>
            Do (SetMessages (fun prev => prev ++
                  [error_message
                     (Js.or_else (response jobStatus)
                        ("Error: " +:+ Js.template (job_error jobStatus))) t]))
            (Do (SetActiveJobs (remove_job jobId)) k)))
      rest))
  end.

Fixpoint poll_jobs (jobIds : list string) : Proc :=
  match jobIds with
  | [] => Done
  | jobId :: rest => Await (GetJobStatus jobId) (on_job_status jobId (poll_jobs rest))
  end.

(** [checkJobStatuses] (lines 280-344); [activeJobs] is the one of the
    render the function belongs to. *)
Definition checkJobStatuses (st : State) : Proc :=
  poll_jobs (Object_keys (activeJobs st)).

(** *** The poll timer and the event loop *)

(** The component in the browser: the suspended handlers and the state, the
    ref [pollInterval], the intervals that are set (each with the render
    whose [checkJobStatuses] it calls), the next id [setInterval] hands out,
    and the identity of the [activeJobs] object the poll effect last ran
    for. *)
Record Browser := {
  world : World;
  pollInterval : option nat;
  timers : list (nat * State);
  next_timer : nat;
  effect_jobs_id : nat;
}.

Definition with_world (w : World) (b : Browser) : Browser := {|
  world := w;
  pollInterval := pollInterval b;
  timers := timers b;
  next_timer := next_timer b;
  effect_jobs_id := effect_jobs_id b;
|}.

Definition clearInterval (id : nat) (ts : list (nat * State)) : list (nat * State) :=
  filter (fun t => t.1 <> id) ts.

(** [if (pollInterval.current)]: [null] and [0] are falsy. *)
Definition ref_truthy (r : option nat) : bool :=
  match r with
  | Some id => negb (id =? 0)
  | None => false
  end.

(** The function returned by the poll effect (lines 47-51). *)
Definition poll_effect_cleanup (b : Browser) : Browser :=
  if ref_truthy (pollInterval b)
  then {| world := world b;
          pollInterval := pollInterval b;
          timers := clearInterval (default 0 (pollInterval b)) (timers b);
          next_timer := next_timer b;
          effect_jobs_id := effect_jobs_id b |}
  else b.

(** The poll effect (lines 40-45). *)
Definition poll_effect (b : Browser) : Browser :=
  if 0 <? length (Object_keys (activeJobs (state (world b))))
  then {| world := world b;
          pollInterval := Some (next_timer b);
          timers := timers b ++ [(next_timer b, state (world b))];
          next_timer := S (next_timer b);
          effect_jobs_id := effect_jobs_id b |}
  else if ref_truthy (pollInterval b)
  then {| world := world b;
          pollInterval := None;
          timers := clearInterval (default 0 (pollInterval b)) (timers b);
          next_timer := next_timer b;
          effect_jobs_id := effect_jobs_id b |}
  else b.

(** After the handlers of an event have run React renders; when [activeJobs]
    is another object than at the last run of the poll effect, the cleanup
    of that run and then the effect are executed ([useEffect(..., [activeJobs])]). *)
Definition render (b : Browser) : Browser :=
  if activeJobs_id (state (world b)) =? effect_jobs_id b then b
  else
    let b' := poll_effect (poll_effect_cleanup b) in
    {| world := world b';
       pollInterval := pollInterval b';
       timers := timers b';
       next_timer := next_timer b';
       effect_jobs_id := activeJobs_id (state (world b)) |}.

(** What can happen to the mounted component. *)
Inductive Event :=
| ClickNewConversation
| ClickConversation (id : string)
| ClickDelete (id : string)
| ChangeInput (text : string)
| ClickSend
| PressEnter
| SelectFiles (files : list string)
| DropFiles (files : list string)
| DragOver
| DragLeave
| ClickRemoveFile (index : nat)
| ToggleSidebar
| Response (i : nat) (res : Result)
| IntervalFires (id : nat)
| ClockAdvances (t : Timestamp).

(** The handler the view attaches to a user event or a timer, for the
    current render; disabled controls do not fire. *)
Definition handler (e : Event) (b : Browser) : Proc :=
  let st := state (world b) in
  match e with
  | ClickNewConversation => startNewConversation Done
  | ClickConversation id => loadConversation st id
  | ClickDelete id => deleteConversation st id
  | ChangeInput text =>
      if textarea_enabled st then Do (SetInputMessage text) Done else Done
  | ClickSend => if send_button_enabled st then sendMessage st else Done
  | PressEnter => if textarea_enabled st then sendMessage st else Done
  | SelectFiles files => if isLoading st then Done else handleFileUpload st files
  | DropFiles files => handleDrop st files
  | DragOver => handleDragOver
  | DragLeave => handleDragLeave
  | ClickRemoveFile index => removeStagedFile index
  | ToggleSidebar => Do (SetSidebarOpen (negb (sidebarOpen st))) Done
  | IntervalFires id =>
      match list_find (fun t => t.1 = id) (timers b) with
      | Some (_, (_, snapshot)) => checkJobStatuses snapshot
      | None => Done
      end
  | Response _ _ | ClockAdvances _ => Done
  end.

Definition dispatch (e : Event) (b : Browser) : Browser :=
  render (with_world
    match e with
    | Response i res => deliver i res (world b)
    | ClockAdvances t => advance t (world b)
    | _ => run (handler e b) (world b)
    end b).

(** Mounting: the first render, the mount effect calls [loadConversations],
    and the poll effect finds no job. *)
Definition mount (t : Timestamp) : Browser := {|
  world := run loadConversations
             {| state := initial_state; clock := t; pending := []; sent := [] |};
  pollInterval := None;
  timers := [];
  next_timer := 1;
  effect_jobs_id := 0;
|}.

Definition dispatch_all (es : list Event) (b : Browser) : Browser :=
  foldl (fun b e => dispatch e b) b es.

Inductive reachable : Browser -> Prop :=
| reachable_mount t : reachable (mount t)
| reachable_dispatch e b : reachable b -> reachable (dispatch e b).

(** The poll timer is running. *)
Definition timer_running (b : Browser) : Prop := timers b <> [].


(** *** Invariants and measures used in the properties *)

(** Setter calls never reuse an identity of [activeJobs]: the object is the
    same exactly when its identity is. *)
Definition jobs_stable (s s' : State) : Prop :=
  activeJobs_id s <= activeJobs_id s'
  /\ (activeJobs_id s = activeJobs_id s' -> activeJobs s = activeJobs s').

(** What holds of the timers whatever the job map is: no interval is set, or
    exactly the one the ref points to. *)
Definition timers_tracked (b : Browser) : Prop :=
  0 < next_timer b
  /\ (timers b = []
      \/ exists id snapshot,
           timers b = [(id, snapshot)] /\ pollInterval b = Some id
           /\ 0 < id < next_timer b).

(** What holds after a render. *)
Definition timer_inv (b : Browser) : Prop :=
  effect_jobs_id b = activeJobs_id (state (world b))
  /\ timers_tracked b
  /\ (timers b <> [] <-> activeJobs (state (world b)) <> []).

(** The number of messages of the log that are flagged completed and have
    the text [x]. *)
Definition count_completed (x : string) (log : list Message) : nat :=
  length (filter (fun msg => completed msg = true /\ content msg = Some x) log).

(** A suspended iteration of [checkJobStatuses]. *)
Definition poll_task (t : Task Update) : Prop :=
  exists jobId rest,
    t = {| task_request := GetJobStatus jobId;
           task_resume := on_job_status jobId (poll_jobs rest) |}.

(** A poll tick: an interval fires, or a response arrives. *)
Definition is_poll_event (e : Event) : Prop :=
  match e with
  | IntervalFires _ | Response _ _ => True
  | _ => False
  end.

(** A setter call that cannot produce a second completed message of text [x]. *)
Definition dedup_safe (x : string) (u : Update) : Prop :=
  forall s, count_completed x (messages (apply_update u s))
            <= Nat.max 1 (count_completed x (messages s)).

(** No second completed message of text [x] between [s] and [s']: at most
    one, or as many as before. *)
Definition no_second (x : string) (s s' : State) : Prop :=
  count_completed x (messages s') <= Nat.max 1 (count_completed x (messages s)).

(** A setter call that leaves the staged files alone. *)
Definition keeps_files (u : Update) : Prop :=
  forall s, uploadedFiles (apply_update u s) = uploadedFiles s.

(** The guard of [sendMessage] lets the call through. *)
Definition send_proceeds (st : State) : Prop :=
  negb (Js.truthy (Js.trim (inputMessage st))) && (length (uploadedFiles st) =? 0)
  = false.

(** The test that decides on the dashboard request. *)
Definition dashboard_intent (st : State) : bool :=
  (0 <? length (uploadedFiles st))
  && looks_like_dashboard_request (Js.trim (inputMessage st)).

Definition is_create_dashboard (r : Request) : bool :=
  match r with
  | PostCreateDashboard _ _ _ => true
  | _ => false
  end.

(** A setter call that only adds messages at the end of the log. *)
Definition appends_only (u : Update) : Prop :=
  forall s, messages s `prefix_of` messages (apply_update u s).

(** A user event that replaces or clears the log: starting a new
    conversation, opening one, deleting one. *)
Definition replaces_log (e : Event) : bool :=
  match e with
  | ClickNewConversation | ClickConversation _ | ClickDelete _ => true
  | _ => false
  end.

(** What holds of the ref and of the closure of the interval after a render:
    the interval calls the [checkJobStatuses] of a render that has the
    current [activeJobs], the ref holds its id, and the ref is [null] when no
    interval is set. *)
Definition timer_fresh (b : Browser) : Prop :=
  (forall id snapshot,
     (id, snapshot) ∈ timers b ->
     activeJobs snapshot = activeJobs (state (world b))
     /\ pollInterval b = Some id)
  /\ (timers b = [] -> pollInterval b = None).




(** The log of [s'] extends the log of [s]. *)
Definition grows (s s' : State) : Prop := messages s `prefix_of` messages s'.


(** *** Requests in flight *)

(** The requests of a send: the chat request and the dashboard request. *)
Definition is_send_request (r : Request) : bool :=
  match r with
  | PostChat _ _ | PostCreateDashboard _ _ _ => true
  | _ => false
  end.

(** The requests of a conversation load: its messages and its files. *)
Definition is_load_request (r : Request) : bool :=
  match r with
  | GetConversation _ | GetConversationFiles _ => true
  | _ => false
  end.

(** The part of [sendMessage] that runs when the dashboard request of the
    call [sendMessage st], made after the chat response [d], is answered. *)
Definition after_dashboard (d : Data) : Result -> Proc :=
  fun dres =>
    match dres with
    | Err _ =>
        Now (fun t =>
          Do (SetMessages (fun prev => prev ++ [error_message send_error_text t]))
          (Do (SetIsLoading false) Done))
    | Ok dd =>
        when (Js.truthy_opt (data_job_id dd))
          (Do (SetActiveJobs (fun prev =>
             obj_set (default "" (data_job_id dd))
               (processing_job (data_conversation_id d)) prev)))
        (Fork loadConversations (Do (SetIsLoading false) Done))
    end.

(** The part of [sendMessage st] that runs when the chat request is
    answered. *)
Definition after_chat (st : State) : Result -> Proc :=
  fun res =>
    match res with
    | Err _ =>
        Now (fun t =>
          Do (SetMessages (fun prev => prev ++ [error_message send_error_text t]))
          (Do (SetIsLoading false) Done))
    | Ok d =>
        Now (fun t =>
        Do (SetMessages (fun prev => prev ++ [assistant_message d t]))
        (Do (SetCurrentConversationId (data_conversation_id d))
        (if (0 <? length (uploadedFiles st))
            && looks_like_dashboard_request (Js.trim (inputMessage st))
         then
           Await (PostCreateDashboard (Js.trim (inputMessage st))
                    (data_conversation_id d) (map path (uploadedFiles st)))
             (after_dashboard d)
         else Fork loadConversations (Do (SetIsLoading false) Done))))
    end.

(** The part of [loadConversation] that runs when the files arrive. *)
Definition after_files : Result -> Proc :=
  fun fres =>
    match fres with
    | Ok fd =>
        match data_files fd with
        | Some fs =>
            Do (SetUploadedFiles (fun _ => fs)) (Do (SetLoadingConversation false) Done)
        | None => Do (SetLoadingConversation false) Done
        end
    | Err _ =>
        Do (SetUploadedFiles (fun _ => [])) (Do (SetLoadingConversation false) Done)
    end.

(** The part of [loadConversation] that runs when the messages arrive. *)
Definition after_messages (conversationId : string) : Result -> Proc :=
  fun res =>
    match res with
    | Ok d =>
        match data_messages d with
        | Some msgs =>
            Do (SetMessages (fun _ => msgs))
            (Do (SetCurrentConversationId (Some conversationId))
            (Await (GetConversationFiles conversationId) after_files))
        | None => Do (SetLoadingConversation false) Done
        end
    | Err _ =>
        Do (SetMessages (fun _ => []))
        (Do (SetUploadedFiles (fun _ => []))
           (Do (SetLoadingConversation false) Done))
    end.

(** A setter call that touches neither loading flag. *)
Definition quiet_update (u : Update) : Prop :=
  match u with
  | SetIsLoading _ | SetLoadingConversation _ => False
  | _ => True
  end.

(** A request that belongs neither to a send nor to a load. *)
Definition quiet_request (r : Request) : Prop :=
  is_send_request r = false /\ is_load_request r = false.

(** A handler body that touches neither loading flag and starts neither a
    send nor a load. *)
Definition quiet (p : Proc) : Prop :=
  all_updates quiet_update p /\ all_requests quiet_request p.

(** What a suspended handler can be: a stage of a send, a stage of a load,
    or a handler that is quiet from there on. *)
Definition known_task (t : Task Update) : Prop :=
  match task_request t with
  | PostChat _ _ => exists st, task_resume t = after_chat st
  | PostCreateDashboard _ _ _ => exists d, task_resume t = after_dashboard d
  | GetConversation id => task_resume t = after_messages id
  | GetConversationFiles _ => task_resume t = after_files
  | _ => forall res, quiet (task_resume t res)
  end.

(** The loading flags count the sends and the loads in flight. *)
Definition flight_inv (w : World) : Prop :=
  Forall known_task (pending w)
  /\ count_tasks is_send_request (pending w)
     = (if isLoading (state w) then 1 else 0)
  /\ count_tasks is_load_request (pending w)
     = (if loadingConversation (state w) then 1 else 0).
End App.

(** ** The themed variant of the component

    The repository holds a second copy of [App] with colour themes and
    without dashboard jobs.  Its handlers differ from those of App.js in
    their guards and in what they do on failure. *)

Module Themed.

Record State := {
  messages : list Message;
  inputMessage : string;
  isLoading : bool;
  conversations : list Conversation;
  currentConversationId : option string;
  uploadedFiles : list FileObj;
  loadingConversation : bool;
  currentTheme : string;
  showThemeModal : bool;
}.

Definition initial_state : State := {|
  messages := [];
  inputMessage := "";
  isLoading := false;
  conversations := [];
  currentConversationId := Some "";
  uploadedFiles := [];
  loadingConversation := false;
  currentTheme := "default";
  showThemeModal := false;
|}.

Inductive Update :=
| SetMessages (f : list Message -> list Message)
| SetInputMessage (v : string)
| SetIsLoading (v : bool)
| SetConversations (v : list Conversation)
| SetCurrentConversationId (v : option string)
| SetUploadedFiles (f : list FileObj -> list FileObj)
| SetLoadingConversation (v : bool)
| SetCurrentTheme (v : string)
| SetShowThemeModal (v : bool).

Definition apply_update (u : Update) (s : State) : State :=
  match u with
  | SetMessages f =>
      {| messages := f (messages s); inputMessage := inputMessage s;
         isLoading := isLoading s; conversations := conversations s;
         currentConversationId := currentConversationId s;
         uploadedFiles := uploadedFiles s;
         loadingConversation := loadingConversation s;
         currentTheme := currentTheme s; showThemeModal := showThemeModal s |}
  | SetInputMessage v =>
      {| messages := messages s; inputMessage := v;
         isLoading := isLoading s; conversations := conversations s;
         currentConversationId := currentConversationId s;
         uploadedFiles := uploadedFiles s;
         loadingConversation := loadingConversation s;
         currentTheme := currentTheme s; showThemeModal := showThemeModal s |}
  | SetIsLoading v =>
      {| messages := messages s; inputMessage := inputMessage s;
         isLoading := v; conversations := conversations s;
         currentConversationId := currentConversationId s;
         uploadedFiles := uploadedFiles s;
         loadingConversation := loadingConversation s;
         currentTheme := currentTheme s; showThemeModal := showThemeModal s |}
  | SetConversations v =>
      {| messages := messages s; inputMessage := inputMessage s;
         isLoading := isLoading s; conversations := v;
         currentConversationId := currentConversationId s;
         uploadedFiles := uploadedFiles s;
         loadingConversation := loadingConversation s;
         currentTheme := currentTheme s; showThemeModal := showThemeModal s |}
  | SetCurrentConversationId v =>
      {| messages := messages s; inputMessage := inputMessage s;
         isLoading := isLoading s; conversations := conversations s;
         currentConversationId := v;
         uploadedFiles := uploadedFiles s;
         loadingConversation := loadingConversation s;
         currentTheme := currentTheme s; showThemeModal := showThemeModal s |}
  | SetUploadedFiles f =>
      {| messages := messages s; inputMessage := inputMessage s;
         isLoading := isLoading s; conversations := conversations s;
         currentConversationId := currentConversationId s;
         uploadedFiles := f (uploadedFiles s);
         loadingConversation := loadingConversation s;
         currentTheme := currentTheme s; showThemeModal := showThemeModal s |}
  | SetLoadingConversation v =>
      {| messages := messages s; inputMessage := inputMessage s;
         isLoading := isLoading s; conversations := conversations s;
         currentConversationId := currentConversationId s;
         uploadedFiles := uploadedFiles s;
         loadingConversation := v;
         currentTheme := currentTheme s; showThemeModal := showThemeModal s |}
  | SetCurrentTheme v =>
      {| messages := messages s; inputMessage := inputMessage s;
         isLoading := isLoading s; conversations := conversations s;
         currentConversationId := currentConversationId s;
         uploadedFiles := uploadedFiles s;
         loadingConversation := loadingConversation s;
         currentTheme := v; showThemeModal := showThemeModal s |}
  | SetShowThemeModal v =>
      {| messages := messages s; inputMessage := inputMessage s;
         isLoading := isLoading s; conversations := conversations s;
         currentConversationId := currentConversationId s;
         uploadedFiles := uploadedFiles s;
         loadingConversation := loadingConversation s;
         currentTheme := currentTheme s; showThemeModal := v |}
  end.

Local Abbreviation Proc := (Proc Update).
Local Abbreviation World := (World State Update).
Local Abbreviation run := (run apply_update).
Local Abbreviation deliver := (deliver apply_update).
Local Abbreviation deliver_last := (deliver_last apply_update).

(** [loadConversations]: a failure is only logged. *)
Definition loadConversations : Proc :=
  Await GetConversations (fun res =>
    match res with
    | Ok d => Do (SetConversations (default [] (data_conversations d))) Done
    | Err _ => Done
    end).

Definition startNewConversation (k : Proc) : Proc :=
  Do (SetCurrentConversationId (Some ""))
  (Do (SetMessages (fun _ => []))
  (Do (SetUploadedFiles (fun _ => [])) k)).

Definition loadConversation (st : State) (conversationId : string) : Proc :=
  if loadingConversation st then Done else
  let finally_ := Do (SetLoadingConversation false) Done in
  Do (SetLoadingConversation true)
  (Await (GetConversation conversationId) (fun res =>
    match res with
    | Ok d =>
        Do (SetMessages (fun _ => default [] (data_messages d)))
        (Do (SetCurrentConversationId (Some conversationId))
        (Await (GetConversationFiles conversationId) (fun fres =>
          match fres with
          | Ok fd =>
              Do (SetUploadedFiles (fun _ => default [] (data_files fd))) finally_
          | Err _ => finally_
          end)))
    | Err _ => finally_
    end)).

(** The filter is applied to the [conversations] of the render. *)
Definition deleteConversation (st : State) (conversationId : string) : Proc :=
  Await (DeleteConversation conversationId) (fun res =>
    match res with
    | Ok _ =>
        Do (SetConversations
              (filter (fun conv => negb (String.eqb (conv_id conv) conversationId))
                 (conversations st)))
        (if Js.strict_eq (currentConversationId st) conversationId
         then startNewConversation Done else Done)
    | Err _ => Done
    end).

Definition plain_message (r : string) (c : option string) (t : Timestamp) : Message := {|
  role := r;
  content := c;
  timestamp := t;
  msg_dashboard_url := None;
  msg_download_link := None;
  error := false;
  completed := false;
|}.

Definition send_error_text : string :=
  "I encountered an issue processing your request. Please try again.".

(** [sendMessage] of the themed variant: the text is sent untrimmed, and the
    conversation id of the server is taken only when none is active. *)
Definition sendMessage (st : State) : Proc :=
  if negb (Js.truthy (Js.trim (inputMessage st))) || isLoading st
  then Done else
  let finally_ := Do (SetIsLoading false) Done in
  Now (fun t0 =>
  Do (SetMessages (fun prev => prev ++ [plain_message "user" (Some (inputMessage st)) t0]))
  (Do (SetInputMessage "")
  (Do (SetIsLoading true)
  (Await (PostChat (inputMessage st) (currentConversationId st)) (fun res =>
    match res with
    | Ok d =>
        Now (fun t =>
        Do (SetMessages (fun prev =>
              prev ++ [plain_message "assistant" (data_response d) t]))
        (if negb (Js.truthy_opt (currentConversationId st))
            && Js.truthy_opt (data_conversation_id d)
         then Do (SetCurrentConversationId (data_conversation_id d))
                (Fork loadConversations finally_)
         else finally_))
    | Err _ =>
        Now (fun t =>
        Do (SetMessages (fun prev =>
              prev ++ [plain_message "assistant" (Some send_error_text) t]))
        finally_)
    end))))).

Definition uploaded_file (t : Timestamp) (file_name : string) : FileObj := {|
  name := None;
  filename := Some file_name;
  path := None;
  type := None;
  uploadTime := Some t;
|}.

(** [handleFileUpload] of the themed variant: a failure is only logged. *)
Definition handleFileUpload (st : State) (files : list string) : Proc :=
  if length files =? 0 then Done else
  Await (PostUpload files (currentConversationId st)) (fun res =>
    match res with
    | Ok d =>
        Now (fun t =>
        Do (SetUploadedFiles (fun prev =>
              prev ++ map (uploaded_file t) (default [] (data_file_names d))))
        (if negb (Js.truthy_opt (currentConversationId st))
            && Js.truthy_opt (data_conversation_id d)
         then Do (SetCurrentConversationId (data_conversation_id d))
                (Fork loadConversations Done)
         else Done))
    | Err _ => Done
    end).

(** *** Colour themes *)

(** What the theme functions touch besides the state: the class of the
    document body and the entry [chat-theme] of the local storage. *)
Record Page := {
  body_className : string;
  chat_theme : option string;
}.

(** [applyTheme]. *)
Definition applyTheme (themeName : string) (p : Page) : Page :=
  {| body_className := "theme-" +:+ themeName; chat_theme := chat_theme p |}.

(** [handleThemeChange]. *)
Definition handleThemeChange (themeName : string) (sp : State * Page) : State * Page :=
  let s := apply_update (SetCurrentTheme themeName) (fst sp) in
  let p := applyTheme themeName (snd sp) in
  let p := {| body_className := body_className p; chat_theme := Some themeName |} in
  (apply_update (SetShowThemeModal false) s, p).

(** The part of the mount effect that restores the theme. *)
Definition restore_theme (sp : State * Page) : State * Page :=
  let savedTheme := Js.or_else (chat_theme (snd sp)) "default" in
  (apply_update (SetCurrentTheme savedTheme) (fst sp), applyTheme savedTheme (snd sp)).

(** A page load: the state starts afresh, the storage is kept. *)
Definition reload (p : Page) : State * Page :=
  restore_theme (initial_state, {| body_className := ""; chat_theme := chat_theme p |}).

End Themed.

(** ** Concrete sessions *)

Module Sample.
Import App.

Definition t0 : Timestamp := "2025-01-01T00:00:00.000Z".

Definition two_files : list string := ["sales.CSV"; "costs.xlsx"].

Definition done_job : Job := {|
  job_conversation_id := None;
  status := Some "completed";
  progress := Some 100;
  response := Some "Done";
  dashboard_url := Some "http://x";
  download_link := None;
  job_error := None;
|}.

(** A completed status that carries no response text. *)
Definition silent_job : Job := {|
  job_conversation_id := None;
  status := Some "completed";
  progress := Some 100;
  response := None;
  dashboard_url := Some "http://x";
  download_link := None;
  job_error := None;
|}.

Definition failed_job : Job := {|
  job_conversation_id := None;
  status := Some "error";
  progress := Some 40;
  response := None;
  dashboard_url := None;
  download_link := None;
  job_error := Some "workspace quota exceeded";
|}.

(** The session of the scenario: two files are staged, the user asks for a
    dashboard, the server creates job [j1], and every response has arrived. *)
Definition tracking_j1 : Browser :=
  dispatch_all
    [ Response 0 (Ok (conversations_data []));
      DropFiles two_files;
      Response 0 (Ok (upload_data two_files (Some "c1")));
      ChangeInput "Create a sales dashboard with monthly trends";
      ClickSend;
      Response 0 (Ok (chat_data "On it." (Some "c1")));
      Response 0 (Ok (dashboard_data "j1"));
      Response 0 (Ok (conversations_data [])) ]
    (mount t0).

(** The same session, after which the interval fires and, while the status
    request is in flight, the user starts a new conversation. *)
Definition reset_while_polling : list Event :=
  [ Response 0 (Ok (conversations_data []));
    DropFiles two_files;
    Response 0 (Ok (upload_data two_files (Some "c1")));
    ChangeInput "Create a sales dashboard with monthly trends";
    ClickSend;
    Response 0 (Ok (chat_data "On it." (Some "c1")));
    Response 0 (Ok (dashboard_data "j1"));
    Response 0 (Ok (conversations_data []));
    IntervalFires 1;
    ClickNewConversation ].

(** A status that is not terminal. *)
Definition running_job : Job := {|
  job_conversation_id := None;
  status := Some "processing";
  progress := Some 60;
  response := None;
  dashboard_url := None;
  download_link := None;
  job_error := None;
|}.


Definition one_conversation : Conversation := {|
  conv_id := "c1";
  title := "Sales";
  message_count := 2;
  updated_at := t0;
|}.

Definition staged_file : FileObj := {|
  name := Some "sales.csv";
  filename := None;
  path := Some "sales.csv";
  type := Some "csv";
  uploadTime := Some t0;
|}.

(** A state with a given input text, staged files, conversation id and
    conversation list; nothing else is going on. *)
Definition idle_state (text : string) (files : list FileObj)
    (conversation_id : option string) (convs : list Conversation) : State := {|
  conversations := convs;
  currentConversationId := conversation_id;
  messages := [];
  inputMessage := text;
  isLoading := false;
  uploadedFiles := files;
  isDragging := false;
  activeJobs := [];
  activeJobs_id := 0;
  sidebarOpen := true;
  loadingConversation := false;
|}.


(** Two jobs are tracked. *)
Definition two_jobs : State := {|
  conversations := [];
  currentConversationId := Some "c1";
  messages := [];
  inputMessage := "";
  isLoading := false;
  uploadedFiles := [];
  isDragging := false;
  activeJobs := [("j1", processing_job (Some "c1")); ("j2", processing_job (Some "c1"))];
  activeJobs_id := 2;
  sidebarOpen := true;
  loadingConversation := false;
|}.

Definition world_of (st : State) : World State Update :=
  {| state := st; clock := t0; pending := []; sent := [] |}.


Definition themed_state (text : string) (loading : bool)
    (conversation_id : option string) (convs : list Conversation) : Themed.State := {|
  Themed.messages := [];
  Themed.inputMessage := text;
  Themed.isLoading := loading;
  Themed.conversations := convs;
  Themed.currentConversationId := conversation_id;
  Themed.uploadedFiles := [];
  Themed.loadingConversation := false;
  Themed.currentTheme := "default";
  Themed.showThemeModal := false;
|}.

(** The themed variant with a text typed in conversation [c1]. *)
Definition themed_typed : Themed.State :=
  themed_state "hello" false (Some "c1") [one_conversation].

Definition themed_world_of (st : Themed.State) : World Themed.State Themed.Update :=
  {| state := st; clock := t0; pending := []; sent := [] |}.

Definition network_down : HttpError := {| err_detail := None; err_status := None |}.

End Sample.

(** The world of the sample session, evaluated once. *)
Definition tracking_j1_world : World App.State App.Update :=
  Eval cbv in App.world Sample.tracking_j1.

(** * Properties *)

(** ** Objects as maps *)

Lemma obj_delete_set {V : Type} (k : string) (v : V) (o : JsObject V) :
  obj_delete k (obj_set k v o) = obj_delete k o.
Proof.
  induction o as [|[k' v'] o IH]; simpl.
  - rewrite String.eqb_refl. reflexivity.
  - destruct (String.eqb k' k) eqn:E; simpl; rewrite E; [reflexivity|].
    rewrite IH. reflexivity.
Qed.

Lemma obj_get_set {V : Type} (k : string) (v : V) (o : JsObject V) :
  obj_get k (obj_set k v o) = Some v.
Proof.
  induction o as [|[k' v'] o IH]; simpl.
  - rewrite String.eqb_refl. reflexivity.
  - destruct (String.eqb k' k) eqn:E; simpl; rewrite E; [reflexivity|exact IH].
Qed.

Lemma obj_get_delete {V : Type} (k : string) (o : JsObject V) :
  obj_get k (obj_delete k o) = None.
Proof.
  induction o as [|[k' v'] o IH]; simpl; [reflexivity|].
  destruct (String.eqb k' k) eqn:E; simpl; [exact IH|]. rewrite E. exact IH.
Qed.

(** ** The runtime *)

Section RuntimeFacts.

Context {St Upd : Type} (apply : Upd -> St -> St).

Lemma all_updates_True (p : Proc Upd) : all_updates (fun _ => True) p.
Proof. induction p; constructor; auto. Qed.

Lemma all_updates_impl (P Q : Upd -> Prop) (p : Proc Upd) :
  (forall u, P u -> Q u) -> all_updates P p -> all_updates Q p.
Proof. intros HPQ. induction 1; constructor; auto. Qed.

(** A relation between states that every allowed setter call respects is
    respected by a whole run. *)
Lemma run_state_rel (P : Upd -> Prop) (R : St -> St -> Prop)
    `{!Reflexive R} `{!Transitive R} :
  (forall u s, P u -> R s (apply u s)) ->
  forall p, all_updates P p ->
  forall w, R (state w) (state (run apply p w)).
Proof.
  intros Hstep p Hp. induction Hp as [|u k Hu _ IH|k _ IH|r k _ _|p k _ IHp _ IHk];
    intros w; simpl.
  - reflexivity.
  - etransitivity; [|apply IH]. simpl. auto.
  - apply IH.
  - reflexivity.
  - etransitivity; [apply IHp|apply IHk].
Qed.

Lemma run_clock (p : Proc Upd) (w : World St Upd) :
  clock (run apply p w) = clock w.
Proof.
  revert w. induction p as [|u k IH|k IH|r k _|p IHp k IHk]; intros w; simpl; auto.
  - rewrite IH. reflexivity.
  - rewrite IHk, IHp. reflexivity.
Qed.

Lemma run_pending_ok (P : Upd -> Prop) (p : Proc Upd) :
  all_updates P p ->
  forall w : World St Upd,
    Forall (task_ok P) (pending w) ->
    Forall (task_ok P) (pending (run apply p w)).
Proof.
  induction 1 as [|u k Hu _ IH|k _ IH|r k Hk _|p k _ IHp _ IHk]; intros w Hw; simpl.
  - exact Hw.
  - apply IH. exact Hw.
  - apply IH. exact Hw.
  - apply Forall_app. split; [exact Hw|]. constructor; [|constructor].
    intros res. apply Hk.
  - apply IHk, IHp, Hw.
Qed.

(** Delivering a response runs a continuation that was suspended, so a
    property of all suspended handlers carries over. *)
Lemma deliver_ok (P : Upd -> Prop) (R : St -> St -> Prop)
    `{!Reflexive R} `{!Transitive R} (i : nat) (res : Result) (w : World St Upd) :
  (forall u s, P u -> R s (apply u s)) ->
  Forall (task_ok P) (pending w) ->
  R (state w) (state (deliver apply i res w))
  /\ Forall (task_ok P) (pending (deliver apply i res w)).
Proof.
  intros Hstep Hw. unfold deliver.
  destruct (pending w !! i) as [t|] eqn:Hi; [|split; [reflexivity|exact Hw]].
  assert (all_updates P (task_resume t res)) as Ht.
  { eapply Forall_lookup_1 in Hw; [|exact Hi]. apply Hw. }
  split.
  - apply (run_state_rel P R Hstep _ Ht
             {| state := state w; clock := clock w;
                pending := delete i (pending w); sent := sent w |}).
  - apply run_pending_ok; [exact Ht|]. simpl. apply Forall_delete, Hw.
Qed.

(** The request sent last is the one [deliver_last] answers. *)
Lemma deliver_last_snoc (res : Result) (s : St) (c : Timestamp)
    (l : list (Task Upd)) (t : Task Upd) (h : list Request) :
  deliver_last apply res
    {| state := s; clock := c; pending := l ++ [t]; sent := h |}
  = run apply (task_resume t res)
      {| state := s; clock := c; pending := l; sent := h |}.
Proof.
  unfold deliver_last, deliver. simpl.
  rewrite length_app. simpl.
  replace (pred (length l + 1)) with (length l) by lia.
  rewrite list_lookup_middle by reflexivity.
  rewrite delete_middle, app_nil_r. reflexivity.
Qed.

End RuntimeFacts.

(** ** The sample session *)

Lemma tracking_j1_world_eq : App.world Sample.tracking_j1 = tracking_j1_world.
Proof. reflexivity. Qed.

(** ** The poll timer (App.js) *)

Module PollTimer.
Import App.

#[local] Instance jobs_stable_refl : Reflexive jobs_stable.
Proof. intros s. split; auto. Qed.

#[local] Instance jobs_stable_trans : Transitive jobs_stable.
Proof.
  intros s1 s2 s3 [H1 E1] [H2 E2]. split; [lia|].
  intros E. rewrite E1, E2; auto; lia.
Qed.

Lemma apply_update_jobs_stable (u : Update) (s : State) :
  jobs_stable s (apply_update u s).
Proof. destruct u; split; simpl; auto; lia. Qed.

Lemma run_jobs_stable (p : Proc Update) (w : World State Update) :
  jobs_stable (state w) (state (run apply_update p w)).
Proof.
  apply (run_state_rel apply_update (fun _ => True) jobs_stable).
  - intros u s _. apply apply_update_jobs_stable.
  - apply all_updates_True.
Qed.

Lemma deliver_jobs_stable i res (w : World State Update) :
  jobs_stable (state w) (state (deliver apply_update i res w)).
Proof.
  unfold deliver. destruct (pending w !! i) as [t|]; [|reflexivity].
  apply (run_jobs_stable (task_resume t res)
           {| state := state w; clock := clock w;
              pending := delete i (pending w); sent := sent w |}).
Qed.

Lemma Object_keys_nonempty (jobs : JsObject Job) :
  (0 <? length (Object_keys jobs)) = true <-> jobs <> [].
Proof.
  rewrite Nat.ltb_lt.
  destruct jobs; simpl; split; intros; try lia; congruence.
Qed.

Lemma clearInterval_nil id : clearInterval id [] = [].
Proof. reflexivity. Qed.

Lemma clearInterval_same id (snapshot : State) :
  clearInterval id [(id, snapshot)] = [].
Proof.
  unfold clearInterval. rewrite filter_cons. simpl.
  destruct (decide (id <> id)); [congruence|reflexivity].
Qed.

Lemma cleanup_clears (b : Browser) :
  timers_tracked b ->
  timers (poll_effect_cleanup b) = []
  /\ next_timer (poll_effect_cleanup b) = next_timer b
  /\ world (poll_effect_cleanup b) = world b
  /\ pollInterval (poll_effect_cleanup b) = pollInterval b.
Proof.
  intros [Hn [Hnil|(id & snapshot & Ht & Hp & Hid)]]; unfold poll_effect_cleanup.
  - destruct (ref_truthy (pollInterval b)); simpl; rewrite ?Hnil; auto.
  - rewrite Hp. simpl. destruct (Nat.eqb_spec id 0); [lia|]. simpl.
    rewrite Ht, clearInterval_same. auto.
Qed.

Lemma render_establishes (b : Browser) :
  timers_tracked b ->
  activeJobs_id (state (world b)) <> effect_jobs_id b ->
  timer_inv (render b).
Proof.
  intros Ht Hne. unfold render.
  destruct (Nat.eqb_spec (activeJobs_id (state (world b))) (effect_jobs_id b));
    [contradiction|].
  destruct (cleanup_clears b Ht) as (Hc & Hnx & Hw & Hp).
  pose proof Ht as [Hpos _].
  unfold poll_effect. rewrite Hw, Hc, Hnx.
  destruct (0 <? length (Object_keys (activeJobs (state (world b))))) eqn:Hk.
  - apply Object_keys_nonempty in Hk.
    split; [reflexivity|]. split; simpl.
    + split; [simpl; lia|]. right. eexists _, _. simpl. repeat split; eauto; lia.
    + split; [intros _; exact Hk|intros _; discriminate].
  - assert (activeJobs (state (world b)) = []) as He.
    { destruct (decide (activeJobs (state (world b)) = [])) as [|Hx]; [done|].
      apply Object_keys_nonempty in Hx. congruence. }
    assert (forall b', world b' = world b -> timers b' = [] ->
                       next_timer b' = next_timer b ->
                       effect_jobs_id b' = activeJobs_id (state (world b)) ->
                       timer_inv b') as Hfin.
    { intros b' Hw' Ht' Hn' He'. split; [rewrite Hw'; exact He'|].
      split; [split; [lia|left; exact Ht']|].
      rewrite Ht', Hw', He. split; intros H; exfalso; apply H; reflexivity. }
    destruct (ref_truthy (pollInterval (poll_effect_cleanup b)));
      apply Hfin; simpl; rewrite ?Hc; auto.
Qed.

Lemma render_keeps (b : Browser) :
  activeJobs_id (state (world b)) = effect_jobs_id b -> render b = b.
Proof. intros H. unfold render. rewrite H, Nat.eqb_refl. reflexivity. Qed.

(** An event keeps the invariant: the handlers only touch the state, and the
    render that follows re-arms or clears the timer. *)
Lemma dispatch_inv (e : Event) (b : Browser) :
  timer_inv b -> timer_inv (dispatch e b).
Proof.
  intros (Hid & Ht & Hiff). unfold dispatch.
  set (w' := match e with
             | Response i res => deliver apply_update i res (world b)
             | ClockAdvances t => advance t (world b)
             | _ => run apply_update (handler e b) (world b)
             end).
  assert (jobs_stable (state (world b)) (state w')) as [Hle Heq].
  { subst w'. destruct e; try apply run_jobs_stable.
    - apply deliver_jobs_stable.
    - reflexivity. }
  destruct (decide (activeJobs_id (state w') = effect_jobs_id b)) as [E|E].
  - rewrite render_keeps by exact E.
    split; [|split]; simpl; auto.
    rewrite <- Heq; [exact Hiff|congruence].
  - apply render_establishes; auto.
Qed.

Lemma mount_inv (t : Timestamp) : timer_inv (mount t).
Proof.
  split; [reflexivity|]. split.
  - split; [simpl; lia|left; reflexivity].
  - simpl. split; [congruence|]. intros H. exfalso. apply H. reflexivity.
Qed.

Lemma dispatch_all_inv (es : list Event) (b : Browser) :
  timer_inv b -> timer_inv (dispatch_all es b).
Proof.
  revert b. induction es as [|e es IH]; intros b Hb; simpl; [exact Hb|].
  apply IH, dispatch_inv, Hb.
Qed.

Lemma reachable_inv (b : Browser) : reachable b -> timer_inv b.
Proof. induction 1; [apply mount_inv|apply dispatch_inv; assumption]. Qed.

(** C1.  In every state the component can reach from its mount (whatever the
    user does, whatever the server answers and whichever interval fires), at
    most one poll interval is set, and one is set exactly when the map of
    active jobs is not empty. *)
Theorem poll_timer_iff_jobs (t : Timestamp) (es : list Event) :
  let b := dispatch_all es (mount t) in
  length (timers b) <= 1
  /\ (timer_running b <-> activeJobs (state (world b)) <> []).
Proof.
  intros b. destruct (dispatch_all_inv es (mount t) (mount_inv t))
    as (_ & [_ Ht] & Hiff). fold b in Ht, Hiff.
  split; [|exact Hiff].
  destruct Ht as [->|(id & snapshot & -> & _)]; simpl; lia.
Qed.

End PollTimer.

(** ** The job poller (App.js) *)

Module Poller.
Import App.

(** The rest of a poll round only sends the next request. *)
Lemma poll_jobs_state (jobIds : list string) (w : World State Update) :
  state (run apply_update (poll_jobs jobIds) w) = state w.
Proof. destruct jobIds; reflexivity. Qed.

(** C2, as the code has it.  When the status of job [jobId] arrives:
    - completed with a response text: the status is merged, the completion
      message is added unless the log already has a completed message with
      that text, and the job leaves the map;
    - completed without a response text: the status is merged and nothing
      else happens, the job stays in the map;
    - error: an error-flagged message with the response text, or else
      "Error: " followed by the error, is added, and the job leaves the map. *)
Theorem terminal_status_handling (jobId : string) (rest : list string)
    (d : Data) (w : World State Update) :
  let jobStatus := data_job d in
  let w' := run apply_update (on_job_status jobId (poll_jobs rest) (Ok d)) w in
  (status jobStatus = Some "completed" ->
   Js.truthy_opt (response jobStatus) = true ->
   messages (state w')
   = (if hasCompletionMessage (messages (state w)) jobStatus
      then messages (state w)
      else messages (state w) ++ [result_message jobStatus (clock w)])
   /\ activeJobs (state w') = obj_delete jobId (activeJobs (state w)))
  /\ (status jobStatus = Some "completed" ->
      Js.truthy_opt (response jobStatus) = false ->
      messages (state w') = messages (state w)
      /\ activeJobs (state w') = obj_set jobId jobStatus (activeJobs (state w)))
  /\ (status jobStatus = Some "error" ->
      messages (state w')
      = messages (state w)
        ++ [error_message
              (Js.or_else (response jobStatus)
                 ("Error: " +:+ Js.template (job_error jobStatus))) (clock w)]
      /\ activeJobs (state w') = obj_delete jobId (activeJobs (state w))).
Proof.
  intros jobStatus w'. subst w'. unfold on_job_status, when, status_is.
  fold jobStatus. split; [|split].
  - intros Hs Hr. rewrite Hs, Hr. simpl. rewrite poll_jobs_state. simpl.
    split; [|apply obj_delete_set].
    unfold add_completion.
    destruct (hasCompletionMessage (messages (state w)) jobStatus); reflexivity.
  - intros Hs Hr. rewrite Hs, Hr. simpl. rewrite poll_jobs_state. simpl.
    split; reflexivity.
  - intros Hs. rewrite Hs. simpl. rewrite poll_jobs_state. simpl.
    split; [reflexivity|apply obj_delete_set].
Qed.


(** A concrete input for each of the three cases: job [j1] of the sample
    session completes with the text "Done", completes without text, fails. *)
Lemma terminal_status_handling_witness :
  let w := world Sample.tracking_j1 in
  let after job :=
    state (run apply_update
             (on_job_status "j1" (poll_jobs []) (Ok (job_status_data job))) w) in
  (messages (after Sample.done_job)
   = messages (state w) ++ [result_message Sample.done_job (clock w)]
   /\ activeJobs (after Sample.done_job) = [])
  /\ (messages (after Sample.silent_job) = messages (state w)
       /\ activeJobs (after Sample.silent_job) = [("j1", Sample.silent_job)])
  /\ (messages (after Sample.failed_job)
       = messages (state w)
         ++ [error_message "Error: workspace quota exceeded" (clock w)]
       /\ activeJobs (after Sample.failed_job) = []).
Proof.
  intros w after. subst after w. rewrite tracking_j1_world_eq.
  split; [|split].
  - exact (proj1 (terminal_status_handling "j1" []
             (job_status_data Sample.done_job) tracking_j1_world) eq_refl eq_refl).
  - exact (proj1 (proj2 (terminal_status_handling "j1" []
             (job_status_data Sample.silent_job) tracking_j1_world)) eq_refl eq_refl).
  - exact (proj2 (proj2 (terminal_status_handling "j1" []
             (job_status_data Sample.failed_job) tracking_j1_world)) eq_refl).
Defined.

(** C2 as stated fails: the poll of job [j1] returns the terminal status
    completed, without a response text; the job is still in the map, no
    message was added, and the poll timer keeps running. *)
Lemma completed_without_text_not_retired :
  let b := dispatch_all
             [IntervalFires 1; Response 0 (Ok (job_status_data Sample.silent_job))]
             Sample.tracking_j1 in
  status Sample.silent_job = Some "completed"
  /\ obj_get "j1" (activeJobs (state (world b))) = Some Sample.silent_job
  /\ messages (state (world b)) = messages (state (world Sample.tracking_j1))
  /\ length (timers b) = 1.
Proof. lazy. repeat split. Qed.

End Poller.

(** ** One completion message per response text (App.js) *)

Module Dedup.
Import App.

#[local] Instance no_second_refl x : Reflexive (no_second x).
Proof. intros s. unfold no_second. lia. Qed.

#[local] Instance no_second_trans x : Transitive (no_second x).
Proof. intros s1 s2 s3. unfold no_second. lia. Qed.

Lemma count_completed_snoc (x : string) (log : list Message) (m : Message) :
  count_completed x (log ++ [m])
  = count_completed x log
    + (if decide (completed m = true /\ content m = Some x) then 1 else 0).
Proof.
  unfold count_completed. rewrite filter_app, length_app. f_equal.
  rewrite filter_cons, filter_nil.
  destruct (decide (completed m = true /\ content m = Some x)); reflexivity.
Qed.

(** When the guard of the updater finds nothing, the log has no completed
    message with the text of the job. *)
Lemma no_completion_message_count (x : string) (log : list Message) (job : Job) :
  hasCompletionMessage log job = false ->
  response job = Some x ->
  count_completed x log = 0.
Proof.
  intros Hnone Hx. unfold count_completed.
  induction log as [|m log IH]; [reflexivity|].
  unfold hasCompletionMessage in Hnone. simpl in Hnone.
  apply orb_false_iff in Hnone as [Hm Hlog].
  rewrite filter_cons.
  destruct (decide (completed m = true /\ content m = Some x)) as [[Hc Hm']|_].
  - rewrite Hc, Hx in Hm. simpl in Hm.
    rewrite bool_decide_eq_false in Hm. contradiction.
  - apply IH. exact Hlog.
Qed.

Lemma add_completion_no_second (x : string) (job : Job) (t : Timestamp)
    (log : list Message) :
  count_completed x (add_completion job t log)
  <= Nat.max 1 (count_completed x log).
Proof.
  unfold add_completion.
  destruct (hasCompletionMessage log job) eqn:Hhas; simpl; [lia|].
  rewrite count_completed_snoc.
  destruct (decide (completed (result_message job t) = true
                    /\ content (result_message job t) = Some x)) as [[_ Hx]|_];
    [|lia].
  simpl in Hx. rewrite (no_completion_message_count x log job Hhas Hx). lia.
Qed.

Lemma error_message_no_second (x : string) (text : string) (t : Timestamp)
    (log : list Message) :
  count_completed x (log ++ [error_message text t]) = count_completed x log.
Proof.
  rewrite count_completed_snoc.
  destruct (decide _) as [[Hc _]|_]; [discriminate Hc|lia].
Qed.

Lemma SetActiveJobs_dedup_safe x f : dedup_safe x (SetActiveJobs f).
Proof. intros s. simpl. lia. Qed.

(** Every setter call of a poll round is safe. *)
Lemma on_job_status_dedup_safe (x jobId : string) (rest : Proc Update) (res : Result) :
  all_updates (dedup_safe x) rest ->
  all_updates (dedup_safe x) (on_job_status jobId rest res).
Proof.
  intros Hrest. unfold on_job_status, when.
  destruct res as [d|e]; [|exact Hrest].
  constructor; [apply SetActiveJobs_dedup_safe|].
  assert (all_updates (dedup_safe x)
            (if status_is (data_job d) "error"
             then Now (fun t =>
                    Do (SetMessages (fun prev => prev ++
                          [error_message
                             (Js.or_else (response (data_job d))
                                ("Error: " +:+ Js.template (job_error (data_job d)))) t]))
                    (Do (SetActiveJobs (remove_job jobId)) rest))
             else rest)) as Herr.
  { destruct (status_is (data_job d) "error"); [|exact Hrest].
    constructor. intros t. constructor.
    - intros s. simpl. rewrite error_message_no_second. lia.
    - constructor; [apply SetActiveJobs_dedup_safe|exact Hrest]. }
  destruct (status_is (data_job d) "completed" && Js.truthy_opt (response (data_job d)));
    [|exact Herr].
  constructor. intros t. constructor.
  - intros s. simpl. apply add_completion_no_second.
  - constructor; [apply SetActiveJobs_dedup_safe|exact Herr].
Qed.

Lemma poll_jobs_dedup_safe (x : string) (jobIds : list string) :
  all_updates (dedup_safe x) (poll_jobs jobIds).
Proof.
  induction jobIds as [|jobId rest IH]; simpl; constructor.
  intros res. apply on_job_status_dedup_safe, IH.
Qed.

Lemma poll_task_ok (x : string) (t : Task Update) :
  poll_task t -> task_ok (dedup_safe x) t.
Proof.
  intros (jobId & rest & ->) res. simpl.
  apply on_job_status_dedup_safe, poll_jobs_dedup_safe.
Qed.

Lemma render_world (b : Browser) : world (render b) = world b.
Proof.
  unfold render. destruct (_ =? _); [reflexivity|]. simpl.
  unfold poll_effect, poll_effect_cleanup.
  destruct (ref_truthy (pollInterval b)); simpl;
    destruct (0 <? _); simpl; try reflexivity;
    destruct (ref_truthy _); reflexivity.
Qed.

Lemma dedup_safe_step (x : string) (u : Update) (s : State) :
  dedup_safe x u -> no_second x s (apply_update u s).
Proof. intros H. apply H. Qed.

(** One poll tick. *)
Lemma poll_event_no_second (x : string) (e : Event) (b : Browser) :
  is_poll_event e ->
  Forall (task_ok (dedup_safe x)) (pending (world b)) ->
  no_second x (state (world b)) (state (world (dispatch e b)))
  /\ Forall (task_ok (dedup_safe x)) (pending (world (dispatch e b))).
Proof.
  intros He Hb. unfold dispatch. rewrite render_world. simpl.
  destruct e; try contradiction.
  - apply (deliver_ok apply_update (dedup_safe x) (no_second x)); [|exact Hb].
    intros u s. apply dedup_safe_step.
  - assert (all_updates (dedup_safe x) (handler (IntervalFires id) b)) as Hh.
    { simpl. destruct (list_find _ _) as [[? [? ?]]|]; [|constructor].
      apply poll_jobs_dedup_safe. }
    split.
    + apply (run_state_rel apply_update (dedup_safe x) (no_second x)); [|exact Hh].
      intros u s. apply dedup_safe_step.
    + apply run_pending_ok; assumption.
Qed.

(** C3.  Whatever the message log is, and whatever the statuses the server
    reports, a sequence of poll ticks (intervals firing and job-status
    responses arriving, in any order) never adds a second message flagged
    completed with the text [x]: afterwards the log has at most one such
    message, or as many as it had before. *)
Theorem completion_message_not_duplicated (x : string) (es : list Event)
    (b : Browser) :
  Forall poll_task (pending (world b)) ->
  Forall is_poll_event es ->
  count_completed x (messages (state (world (dispatch_all es b))))
  <= Nat.max 1 (count_completed x (messages (state (world b)))).
Proof.
  intros Hb Hes.
  assert (Forall (task_ok (dedup_safe x)) (pending (world b))) as Hok.
  { eapply Forall_impl; [exact Hb|]. intros t. apply poll_task_ok. }
  clear Hb. revert b Hok.
  induction Hes as [|e es He _ IH]; intros b Hok; simpl; [lia|].
  destruct (poll_event_no_second x e b He Hok) as [Hstep Hok'].
  specialize (IH (dispatch e b) Hok'). unfold no_second in Hstep. lia.
Qed.

(** Job [j1] of the sample session is polled twice before the first answer
    arrives, and both answers say completed with the text "Done". *)
Lemma completion_message_not_duplicated_witness :
  count_completed "Done"
    (messages (state (world (dispatch_all
       [ IntervalFires 1; IntervalFires 1;
         Response 0 (Ok (job_status_data Sample.done_job));
         Response 0 (Ok (job_status_data Sample.done_job)) ]
       Sample.tracking_j1))))
  <= Nat.max 1 (count_completed "Done" (messages (state (world Sample.tracking_j1)))).
Proof.
  apply completion_message_not_duplicated.
  - lazy. constructor.
  - repeat constructor.
Defined.

(** In that run the log had no such message before and has exactly one
    afterwards, and the job is gone. *)
Example double_poll_appends_once :
  let b := dispatch_all
       [ IntervalFires 1; IntervalFires 1;
         Response 0 (Ok (job_status_data Sample.done_job));
         Response 0 (Ok (job_status_data Sample.done_job)) ]
       Sample.tracking_j1 in
  count_completed "Done" (messages (state (world Sample.tracking_j1))) = 0
  /\ count_completed "Done" (messages (state (world b))) = 1
  /\ activeJobs (state (world b)) = []
  /\ timers b = [].
Proof. lazy. repeat split. Qed.

End Dedup.

(** ** More on the runtime and the event loop *)

Section DeliverFacts.

Context {St Upd : Type} (apply : Upd -> St -> St).

(** The task appended last sits at the index given by the length before. *)
Lemma deliver_snoc (res : Result) (s : St) (c : Timestamp)
    (l : list (Task Upd)) (t : Task Upd) (h : list Request) :
  deliver apply (length l) res
    {| state := s; clock := c; pending := l ++ [t]; sent := h |}
  = run apply (task_resume t res)
      {| state := s; clock := c; pending := l; sent := h |}.
Proof.
  unfold deliver. simpl.
  rewrite list_lookup_middle by reflexivity.
  rewrite delete_middle, app_nil_r. reflexivity.
Qed.


End DeliverFacts.

(** Walks through a handler body, one setter call or branch at a time. *)
Ltac walk :=
  repeat first
    [ match goal with
      | |- all_updates _ (match ?x with _ => _ end) => destruct x
      | |- all_updates _ (App.when ?c _ _) => unfold App.when
      end
    | apply au_Done
    | apply au_Do
    | apply au_Now; intros ?
    | apply au_Await; intros ?
    | apply au_Fork ].

Module Loop.
Import App.

Lemma with_world_id (b : Browser) : with_world (world b) b = b.
Proof. destruct b. reflexivity. Qed.

Lemma poll_effects_world (b : Browser) :
  world (poll_effect (poll_effect_cleanup b)) = world b.
Proof.
  unfold poll_effect, poll_effect_cleanup.
  destruct (ref_truthy (pollInterval b)); simpl;
    destruct (0 <? _); simpl; try reflexivity;
    destruct (ref_truthy _); reflexivity.
Qed.

(** A render leaves the state and the suspended handlers alone. *)
Lemma render_keeps_world (b : Browser) : world (render b) = world b.
Proof.
  unfold render. destruct (_ =? _); [reflexivity|]. simpl.
  apply poll_effects_world.
Qed.

(** After a render the poll effect has seen the current [activeJobs]. *)
Lemma render_rendered (b : Browser) :
  effect_jobs_id (render b) = activeJobs_id (state (world (render b))).
Proof.
  unfold render.
  destruct (Nat.eqb_spec (activeJobs_id (state (world b))) (effect_jobs_id b)) as [E|E].
  - symmetry. exact E.
  - simpl. rewrite poll_effects_world. reflexivity.
Qed.

Lemma render_idempotent (b : Browser) : render (render b) = render b.
Proof.
  apply PollTimer.render_keeps. symmetry. apply render_rendered.
Qed.

Lemma dispatch_rendered (e : Event) (b : Browser) :
  effect_jobs_id (dispatch e b) = activeJobs_id (state (world (dispatch e b))).
Proof. unfold dispatch. apply render_rendered. Qed.

Lemma dispatch_world (e : Event) (b : Browser) :
  world (dispatch e b)
  = match e with
    | Response i res => deliver apply_update i res (world b)
    | ClockAdvances t => advance t (world b)
    | _ => run apply_update (handler e b) (world b)
    end.
Proof. unfold dispatch. rewrite render_keeps_world. reflexivity. Qed.

(** An event whose handler does nothing leaves a rendered component as it
    is. *)
Lemma dispatch_Done (e : Event) (b : Browser) :
  effect_jobs_id b = activeJobs_id (state (world b)) ->
  handler e b = Done ->
  (forall i res, e <> Response i res) ->
  (forall t, e <> ClockAdvances t) ->
  dispatch e b = b.
Proof.
  intros Hr Hh Hresp Hclock. unfold dispatch.
  assert (match e with
          | Response i res => deliver apply_update i res (world b)
          | ClockAdvances t => advance t (world b)
          | _ => run apply_update (handler e b) (world b)
          end = world b) as ->.
  { destruct e; try (rewrite Hh; reflexivity).
    - exfalso. eapply Hresp. reflexivity.
    - exfalso. eapply Hclock. reflexivity. }
  rewrite with_world_id. apply PollTimer.render_keeps. symmetry. exact Hr.
Qed.

End Loop.

(** ** Conversations (App.js) *)

Module Conversations.
Import App.

(** X1.  [loadConversations] sends one GET; the list becomes the one of the
    response, the empty list when the response has none, and the empty list
    when the request fails.  Nothing else of the state changes. *)
Theorem loadConversations_outcome (w : World State Update) :
  let w1 := run apply_update loadConversations w in
  sent w1 = sent w ++ [GetConversations]
  /\ state w1 = state w
  /\ (forall d,
        state (deliver_last apply_update (Ok d) w1)
        = apply_update (SetConversations (fun _ => default [] (data_conversations d)))
            (state w))
  /\ (forall e,
        state (deliver_last apply_update (Err e) w1)
        = apply_update (SetConversations (fun _ => [])) (state w)).
Proof.
  simpl. repeat split; intros; rewrite deliver_last_snoc; reflexivity.
Qed.


(** X2.  [loadConversation], the message stage.  When no load is pending the flag
    is raised and the conversation is requested.  A failure clears the log
    and the staged files and keeps the active conversation id; a response
    without messages changes nothing; a response with messages replaces the
    log, makes the conversation the active one and requests its files, the
    flag staying raised.  The flag is lowered whenever the load ends here. *)
Theorem loadConversation_messages_stage (st : State) (id : string)
    (w : World State Update) :
  loadingConversation st = false ->
  let w1 := run apply_update (loadConversation st id) w in
  state w1 = apply_update (SetLoadingConversation true) (state w)
  /\ sent w1 = sent w ++ [GetConversation id]
  /\ (forall e,
        let w2 := deliver_last apply_update (Err e) w1 in
        messages (state w2) = [] /\ uploadedFiles (state w2) = []
        /\ currentConversationId (state w2) = currentConversationId (state w)
        /\ loadingConversation (state w2) = false
        /\ sent w2 = sent w1)
  /\ (forall d, data_messages d = None ->
        let w2 := deliver_last apply_update (Ok d) w1 in
        state w2 = apply_update (SetLoadingConversation false) (state w)
        /\ sent w2 = sent w1)
  /\ (forall d msgs, data_messages d = Some msgs ->
        let w2 := deliver_last apply_update (Ok d) w1 in
        messages (state w2) = msgs
        /\ currentConversationId (state w2) = Some id
        /\ uploadedFiles (state w2) = uploadedFiles (state w)
        /\ loadingConversation (state w2) = true
        /\ sent w2 = sent w1 ++ [GetConversationFiles id]).
Proof.
  intros Hflag. unfold loadConversation. rewrite Hflag. simpl.
  split; [reflexivity|]. split; [reflexivity|]. split; [|split].
  - intros e. rewrite deliver_last_snoc. simpl. repeat split.
  - intros d Hd. rewrite deliver_last_snoc. simpl. rewrite Hd. simpl.
    repeat split.
  - intros d msgs Hd. rewrite deliver_last_snoc. simpl. rewrite Hd. simpl.
    repeat split.
Qed.

Lemma loadConversation_messages_stage_witness :
  let st := Sample.idle_state "" [Sample.staged_file] (Some "c0") [] in
  let w := Sample.world_of st in
  let w1 := run apply_update (loadConversation st "c1") w in
  let w2 := deliver_last apply_update (Err Sample.network_down) w1 in
  messages (state w2) = [] /\ uploadedFiles (state w2) = []
  /\ currentConversationId (state w2) = currentConversationId (state w)
  /\ loadingConversation (state w2) = false
  /\ sent w2 = sent w1.
Proof.
  intros st w.
  exact (proj1 (proj2 (proj2
    (loadConversation_messages_stage st "c1" w eq_refl))) Sample.network_down).
Defined.

(** X3.  [loadConversation], the file stage, entered after a response with the
    messages [msgs].  The file list of the response replaces the staged
    files; a response without a file list leaves the staged files of the
    previous conversation in place; a failure empties them.  The log is kept
    and the flag is lowered in each case. *)
Theorem loadConversation_files_stage (st : State) (id : string)
    (w : World State Update) (d : Data) (msgs : list Message) :
  loadingConversation st = false ->
  data_messages d = Some msgs ->
  let w2 := deliver_last apply_update (Ok d)
              (run apply_update (loadConversation st id) w) in
  (forall fd fs, data_files fd = Some fs ->
     let s3 := state (deliver_last apply_update (Ok fd) w2) in
     uploadedFiles s3 = fs /\ messages s3 = msgs
     /\ currentConversationId s3 = Some id /\ loadingConversation s3 = false)
  /\ (forall fd, data_files fd = None ->
     let s3 := state (deliver_last apply_update (Ok fd) w2) in
     uploadedFiles s3 = uploadedFiles (state w) /\ messages s3 = msgs
     /\ currentConversationId s3 = Some id /\ loadingConversation s3 = false)
  /\ (forall e,
     let s3 := state (deliver_last apply_update (Err e) w2) in
     uploadedFiles s3 = [] /\ messages s3 = msgs
     /\ currentConversationId s3 = Some id /\ loadingConversation s3 = false).
Proof.
  intros Hflag Hd. unfold loadConversation. rewrite Hflag. simpl.
  rewrite deliver_last_snoc. simpl. rewrite Hd. simpl.
  split; [|split].
  - intros fd fs Hfd. rewrite deliver_last_snoc. simpl. rewrite Hfd. simpl.
    repeat split.
  - intros fd Hfd. rewrite deliver_last_snoc. simpl. rewrite Hfd. simpl.
    repeat split.
  - intros e. rewrite deliver_last_snoc. simpl. repeat split.
Qed.

Lemma loadConversation_files_stage_witness :
  let st := Sample.idle_state "" [Sample.staged_file] (Some "c0") [] in
  let w := Sample.world_of st in
  let w2 := deliver_last apply_update (Ok (conversation_data []))
              (run apply_update (loadConversation st "c1") w) in
  let s3 := state (deliver_last apply_update (Ok empty_data) w2) in
  uploadedFiles s3 = uploadedFiles (state w) /\ messages s3 = []
  /\ currentConversationId s3 = Some "c1" /\ loadingConversation s3 = false.
Proof.
  intros st w.
  exact (proj1 (proj2
    (loadConversation_files_stage st "c1" w (conversation_data []) [] eq_refl eq_refl))
    empty_data eq_refl).
Defined.

(** X4.  [loadConversation] is single-flight.  A call made by a render in which
    the flag is raised does nothing.  Once a click has started a load, a
    second click on any conversation leaves the whole component unchanged,
    both while the messages are awaited and while the files are awaited. *)
Theorem loadConversation_single_flight (b : Browser) (id1 id2 : string) :
  loadingConversation (state (world b)) = false ->
  (forall st w, loadingConversation st = true ->
     run apply_update (loadConversation st id2) w = w)
  /\ (let b1 := dispatch (ClickConversation id1) b in
      dispatch (ClickConversation id2) b1 = b1
      /\ forall d msgs, data_messages d = Some msgs ->
           let b2 := dispatch (Response (length (pending (world b))) (Ok d)) b1 in
           loadingConversation (state (world b2)) = true
           /\ dispatch (ClickConversation id2) b2 = b2).
Proof.
  intros Hflag. split.
  { intros st w Hst. unfold loadConversation. rewrite Hst. reflexivity. }
  assert (forall b', loadingConversation (state (world b')) = true ->
                     effect_jobs_id b' = activeJobs_id (state (world b')) ->
                     dispatch (ClickConversation id2) b' = b') as Hnoop.
  { intros b' Hb' Hr. apply Loop.dispatch_Done; try discriminate; [exact Hr|].
    simpl. unfold loadConversation. rewrite Hb'. reflexivity. }
  assert (world (dispatch (ClickConversation id1) b)
          = {| state := apply_update (SetLoadingConversation true) (state (world b));
               clock := clock (world b);
               pending := pending (world b)
                 ++ [{| task_request := GetConversation id1;
                        task_resume := fun res =>
                          match res with
                          | Ok d =>
                              match data_messages d with
                              | Some msgs =>
                                  Do (SetMessages (fun _ => msgs))
                                  (Do (SetCurrentConversationId (Some id1))
                                  (Await (GetConversationFiles id1) (fun fres =>
                                    match fres with
                                    | Ok fd =>
                                        match data_files fd with
                                        | Some fs =>
                                            Do (SetUploadedFiles (fun _ => fs))
                                              (Do (SetLoadingConversation false) Done)
                                        | None => Do (SetLoadingConversation false) Done
                                        end
                                    | Err _ =>
                                        Do (SetUploadedFiles (fun _ => []))
                                          (Do (SetLoadingConversation false) Done)
                                    end)))
                              | None => Do (SetLoadingConversation false) Done
                              end
                          | Err _ =>
                              Do (SetMessages (fun _ => []))
                              (Do (SetUploadedFiles (fun _ => []))
                                 (Do (SetLoadingConversation false) Done))
                          end |}];
               sent := sent (world b) ++ [GetConversation id1] |}) as Hw1.
  { rewrite Loop.dispatch_world. simpl. unfold loadConversation.
    rewrite Hflag. reflexivity. }
  split.
  - apply Hnoop; [rewrite Hw1; reflexivity|apply Loop.dispatch_rendered].
  - intros d msgs Hd.
    assert (loadingConversation
              (state (world (dispatch (Response (length (pending (world b))) (Ok d))
                               (dispatch (ClickConversation id1) b)))) = true) as Hl.
    { rewrite Loop.dispatch_world, Hw1, deliver_snoc. simpl. rewrite Hd.
      reflexivity. }
    split; [exact Hl|].
    apply Hnoop; [exact Hl|apply Loop.dispatch_rendered].
Qed.

Lemma loadConversation_single_flight_witness :
  let b := Sample.tracking_j1 in
  let b1 := dispatch (ClickConversation "c1") b in
  dispatch (ClickConversation "c2") b1 = b1.
Proof.
  intros b.
  exact (proj1 (proj2 (loadConversation_single_flight b "c1" "c2" eq_refl))).
Defined.


Lemma filter_other_conversations (id : string) (convs : list Conversation)
    (c : Conversation) :
  c ∈ filter (fun conv => negb (String.eqb (conv_id conv) id)) convs
  <-> c ∈ convs /\ conv_id c <> id.
Proof.
  rewrite list_elem_of_filter. split.
  - intros [H1 H2]. split; [exact H2|].
    intros Hid. apply negb_prop_elim in H1. apply H1.
    apply Is_true_eq_left, String.eqb_eq, Hid.
  - intros [H1 H2]. split; [|exact H1].
    apply negb_prop_intro. intros Hx. apply H2.
    apply String.eqb_eq, Is_true_eq_true, Hx.
Qed.

(** X5.  [deleteConversation].  A failure changes nothing.  On success the
    conversations with that id leave the list, the others stay in order; and
    when the id is the active one of the render in which delete was clicked,
    the log, the staged files and the job map are emptied and the active id
    becomes the empty string; otherwise they are kept. *)
Theorem deleteConversation_outcome (st : State) (id : string)
    (w : World State Update) :
  let w1 := run apply_update (deleteConversation st id) w in
  state w1 = state w
  /\ sent w1 = sent w ++ [DeleteConversation id]
  /\ (forall e, state (deliver_last apply_update (Err e) w1) = state w)
  /\ (forall d,
        let s2 := state (deliver_last apply_update (Ok d) w1) in
        (forall c, c ∈ conversations s2
                   <-> c ∈ conversations (state w) /\ conv_id c <> id)
        /\ conversations s2 `sublist_of` conversations (state w)
        /\ (currentConversationId st = Some id ->
             messages s2 = [] /\ uploadedFiles s2 = []
             /\ currentConversationId s2 = Some "" /\ activeJobs s2 = [])
        /\ (currentConversationId st <> Some id ->
             messages s2 = messages (state w)
             /\ uploadedFiles s2 = uploadedFiles (state w)
             /\ currentConversationId s2 = currentConversationId (state w)
             /\ activeJobs s2 = activeJobs (state w))).
Proof.
  simpl. split; [reflexivity|]. split; [reflexivity|]. split.
  - intros e. rewrite deliver_last_snoc. reflexivity.
  - intros d. rewrite deliver_last_snoc. unfold when.
    assert (Js.strict_eq (currentConversationId st) id = true
            <-> currentConversationId st = Some id) as Heq.
    { unfold Js.strict_eq. destruct (currentConversationId st) as [c|].
      - rewrite String.eqb_eq. split; congruence.
      - split; discriminate. }
    destruct (Js.strict_eq (currentConversationId st) id) eqn:E; simpl.
    + split; [apply filter_other_conversations|].
      split; [apply sublist_filter|].
      split; [intros _; repeat split|].
      intros Hne. exfalso. apply Hne, Heq. reflexivity.
    + split; [apply filter_other_conversations|].
      split; [apply sublist_filter|].
      split; [|intros _; repeat split].
      intros Hx. apply Heq in Hx. discriminate.
Qed.

Lemma deleteConversation_outcome_witness :
  let st := Sample.idle_state "" [Sample.staged_file] (Some "c1")
              [Sample.one_conversation] in
  let w := Sample.world_of st in
  let s2 := state (deliver_last apply_update (Ok empty_data)
                     (run apply_update (deleteConversation st "c1") w)) in
  messages s2 = [] /\ uploadedFiles s2 = []
  /\ currentConversationId s2 = Some "" /\ activeJobs s2 = [].
Proof.
  intros st w.
  exact (proj1 (proj2 (proj2 (proj2 (proj2 (proj2
    (deleteConversation_outcome st "c1" w))) empty_data))) eq_refl).
Defined.

(** X6.  Starting a new conversation, in any state the component can reach: the
    log, the staged files and the job map are emptied, the active id becomes
    the empty string, and the poll timer is stopped.  The conversation list
    is kept, and so are the requests that are in flight: they are not
    cancelled. *)
Theorem startNewConversation_resets (t : Timestamp) (es : list Event) :
  let b0 := dispatch_all es (mount t) in
  let b := dispatch ClickNewConversation b0 in
  messages (state (world b)) = []
  /\ uploadedFiles (state (world b)) = []
  /\ currentConversationId (state (world b)) = Some ""
  /\ activeJobs (state (world b)) = []
  /\ timers b = []
  /\ conversations (state (world b)) = conversations (state (world b0))
  /\ pending (world b) = pending (world b0)
  /\ sent (world b) = sent (world b0).
Proof.
  intros b0 b.
  assert (world b = run apply_update (startNewConversation Done) (world b0)) as Hw.
  { subst b. rewrite Loop.dispatch_world. reflexivity. }
  assert (timer_inv b) as (_ & _ & Hiff).
  { subst b. apply PollTimer.dispatch_inv.
    subst b0. apply PollTimer.dispatch_all_inv, PollTimer.mount_inv. }
  rewrite Hw in *. simpl in *. repeat split.
  destruct (timers b) as [|x l]; [reflexivity|].
  exfalso. exact (proj1 Hiff ltac:(discriminate) eq_refl).
Qed.

End Conversations.

(** ** Sending a message (App.js) *)

Module Sending.
Import App.

Lemma truthy_true (s : string) : Js.truthy s = true <-> s <> "".
Proof.
  unfold Js.truthy. rewrite negb_true_iff, String.eqb_neq. reflexivity.
Qed.

Lemma truthy_false (s : string) : Js.truthy s = false <-> s = "".
Proof.
  unfold Js.truthy. rewrite negb_false_iff, String.eqb_eq. reflexivity.
Qed.

Lemma send_proceeds_iff (st : State) :
  send_proceeds st
  <-> Js.trim (inputMessage st) <> "" \/ uploadedFiles st <> [].
Proof.
  unfold send_proceeds. rewrite andb_false_iff, negb_false_iff, truthy_true.
  rewrite Nat.eqb_neq. destruct (uploadedFiles st); simpl; intuition congruence.
Qed.




#[local] Arguments looks_like_dashboard_request : simpl never.
#[local] Arguments Nat.ltb : simpl never.




(** X9.  The answer to the dashboard request.  A response with a non-empty job id
    enters the job into the map as processing with progress 0 and the
    conversation id of the chat response; a response without job id enters
    nothing; in both cases the conversation list is refreshed and the
    loading flag lowered.  A failure adds the error message of the send,
    leaves the job map alone, lowers the flag and does not refresh the
    list. *)
Theorem sendMessage_dashboard_response (st : State) (w : World State Update)
    (d : Data) :
  Js.trim (inputMessage st) <> "" \/ uploadedFiles st <> [] ->
  dashboard_intent st = true ->
  let w2 := deliver_last apply_update (Ok d) (run apply_update (sendMessage st) w) in
  (forall dd j, data_job_id dd = Some j -> j <> "" ->
     let w3 := deliver_last apply_update (Ok dd) w2 in
     activeJobs (state w3)
     = obj_set j (processing_job (data_conversation_id d)) (activeJobs (state w2))
     /\ obj_get j (activeJobs (state w3))
        = Some (processing_job (data_conversation_id d))
     /\ messages (state w3) = messages (state w2)
     /\ isLoading (state w3) = false
     /\ sent w3 = sent w2 ++ [GetConversations])
  /\ (forall dd, Js.truthy_opt (data_job_id dd) = false ->
     let w3 := deliver_last apply_update (Ok dd) w2 in
     activeJobs (state w3) = activeJobs (state w2)
     /\ activeJobs_id (state w3) = activeJobs_id (state w2)
     /\ messages (state w3) = messages (state w2)
     /\ isLoading (state w3) = false
     /\ sent w3 = sent w2 ++ [GetConversations])
  /\ (forall e,
     let w3 := deliver_last apply_update (Err e) w2 in
     messages (state w3)
     = messages (state w2) ++ [error_message send_error_text (clock w)]
     /\ activeJobs (state w3) = activeJobs (state w2)
     /\ isLoading (state w3) = false
     /\ sent w3 = sent w2).
Proof.
  intros Hgo Hdash. apply send_proceeds_iff in Hgo. unfold send_proceeds in Hgo.
  unfold dashboard_intent in Hdash.
  unfold sendMessage, when. rewrite Hgo.
  destruct (Js.truthy (Js.trim (inputMessage st))); simpl;
    rewrite deliver_last_snoc; simpl; rewrite Hdash; simpl.
  all: split; [|split].
  all: try (intros dd j Hj Hne; rewrite deliver_last_snoc; simpl; rewrite Hj; simpl;
            apply truthy_true in Hne; rewrite Hne; simpl;
            rewrite obj_get_set; repeat split).
  all: try (intros dd Hj; rewrite deliver_last_snoc; simpl; rewrite Hj; simpl;
            repeat split).
  all: intros e; rewrite deliver_last_snoc; simpl; repeat split.
Qed.

Lemma sendMessage_dashboard_response_witness :
  let st := Sample.idle_state "dashboard please" [Sample.staged_file] None [] in
  let w := Sample.world_of st in
  let w2 := deliver_last apply_update (Ok (chat_data "Sure." (Some "c2")))
              (run apply_update (sendMessage st) w) in
  let w3 := deliver_last apply_update (Ok (dashboard_data "j7")) w2 in
  obj_get "j7" (activeJobs (state w3)) = Some (processing_job (Some "c2"))
  /\ isLoading (state w3) = false.
Proof.
  intros st w.
  assert (Js.trim (inputMessage st) <> "" \/ uploadedFiles st <> []) as Hgo.
  { right. discriminate. }
  pose proof (proj1 (sendMessage_dashboard_response st w
                       (chat_data "Sure." (Some "c2")) Hgo eq_refl)
                (dashboard_data "j7") "j7" eq_refl ltac:(discriminate))
    as (_ & Hget & _ & Hload & _).
  split; [exact Hget|exact Hload].
Defined.






End Sending.

(** ** What the handlers leave alone (App.js) *)

Module Frames.
Import App.

Lemma keeps_files_other (u : Update) :
  (forall f, u <> SetUploadedFiles f) -> keeps_files u.
Proof.
  intros Hu s. destruct u; try reflexivity. exfalso. eapply Hu. reflexivity.
Qed.

Lemma loadConversations_keeps_files : all_updates keeps_files loadConversations.
Proof. unfold loadConversations. walk; apply keeps_files_other; discriminate. Qed.

Lemma sendMessage_all_keep_files (st : State) :
  all_updates keeps_files (sendMessage st).
Proof.
  unfold sendMessage. walk;
    try apply loadConversations_keeps_files;
    apply keeps_files_other; discriminate.
Qed.

#[local] Instance same_files_refl :
  Reflexive (fun s s' : State => uploadedFiles s' = uploadedFiles s).
Proof. intros s. reflexivity. Qed.

#[local] Instance same_files_trans :
  Transitive (fun s s' : State => uploadedFiles s' = uploadedFiles s).
Proof. intros s1 s2 s3 H1 H2. congruence. Qed.

(** Answers delivered to handlers that leave the files alone. *)
Lemma deliver_each_keeps_files (rs : list Result) (w : World State Update) :
  Forall (task_ok keeps_files) (pending w) ->
  uploadedFiles (state (deliver_each apply_update rs w)) = uploadedFiles (state w).
Proof.
  revert w. induction rs as [|res rs IH]; intros w Hw; [reflexivity|].
  destruct (deliver_ok apply_update keeps_files
              (fun s s' : State => uploadedFiles s' = uploadedFiles s)
              (pred (length (pending w))) res w) as [Hs Hp]; [|exact Hw|].
  { intros u s Hu. apply Hu. }
  change (deliver_each apply_update (res :: rs) w)
    with (deliver_each apply_update rs (deliver_last apply_update res w)).
  rewrite IH; [exact Hs|exact Hp].
Qed.

(** X12.  [sendMessage] never touches the staged files: none of its setter calls
    does, at any of its stages and whatever the server answers.  So when
    nothing else is in flight, the staged files after any number of answers
    are those before the call, also after a send that has submitted their
    paths in a dashboard request. *)
Theorem sendMessage_keeps_staged_files (st : State) (w : World State Update)
    (rs : list Result) :
  pending w = [] ->
  all_updates keeps_files (sendMessage st)
  /\ uploadedFiles
       (state (deliver_each apply_update rs (run apply_update (sendMessage st) w)))
     = uploadedFiles (state w).
Proof.
  intros Hw. split; [apply sendMessage_all_keep_files|].
  rewrite deliver_each_keeps_files.
  - apply (run_state_rel apply_update keeps_files
             (fun s s' : State => uploadedFiles s' = uploadedFiles s)).
    + intros u s Hu. apply Hu.
    + apply sendMessage_all_keep_files.
  - apply run_pending_ok; [apply sendMessage_all_keep_files|].
    rewrite Hw. constructor.
Qed.

Lemma sendMessage_keeps_staged_files_witness :
  let st := Sample.idle_state "dashboard" [Sample.staged_file] None [] in
  let w := Sample.world_of st in
  uploadedFiles
    (state (deliver_each apply_update
              [Ok (chat_data "Sure." (Some "c2")); Ok (dashboard_data "j7");
               Ok (conversations_data [])]
              (run apply_update (sendMessage st) w)))
  = uploadedFiles (state w).
Proof.
  intros st w.
  exact (proj2 (sendMessage_keeps_staged_files st w _ eq_refl)).
Defined.

End Frames.

(** ** The message log only grows (App.js) *)

Module Log.
Import App.

Lemma appends_only_other (u : Update) :
  (forall f, u <> SetMessages f) -> appends_only u.
Proof.
  intros Hu s. destruct u; try reflexivity. exfalso. eapply Hu. reflexivity.
Qed.

Lemma appends_only_snoc (m : Message) :
  appends_only (SetMessages (fun prev => prev ++ [m])).
Proof. intros s. simpl. apply prefix_app_r. reflexivity. Qed.

Lemma appends_only_add_completion (job : Job) (t : Timestamp) :
  appends_only (SetMessages (add_completion job t)).
Proof.
  intros s. simpl. unfold add_completion.
  destruct (negb _); [apply prefix_app_r|]; reflexivity.
Qed.

Ltac appends :=
  first [ apply appends_only_snoc
        | apply appends_only_add_completion
        | apply appends_only_other; discriminate ].

Lemma loadConversations_appends : all_updates appends_only loadConversations.
Proof. unfold loadConversations. walk; appends. Qed.

Lemma sendMessage_appends (st : State) : all_updates appends_only (sendMessage st).
Proof.
  unfold sendMessage. walk; try apply loadConversations_appends; appends.
Qed.

Lemma handleFileUpload_appends (st : State) (files : list string) :
  all_updates appends_only (handleFileUpload st files).
Proof. unfold handleFileUpload. walk; appends. Qed.

Lemma on_job_status_appends (jobId : string) (rest : Proc Update) (res : Result) :
  all_updates appends_only rest ->
  all_updates appends_only (on_job_status jobId rest res).
Proof. intros Hrest. unfold on_job_status. walk; try exact Hrest; appends. Qed.

Lemma poll_jobs_appends (jobIds : list string) :
  all_updates appends_only (poll_jobs jobIds).
Proof.
  induction jobIds as [|jobId rest IH]; simpl; constructor.
  intros res. apply on_job_status_appends, IH.
Qed.

(** The handler of every event that does not replace the log. *)
Lemma handler_appends (e : Event) (b : Browser) :
  replaces_log e = false -> all_updates appends_only (handler e b).
Proof.
  intros He. destruct e; try discriminate He; unfold handler;
    unfold handleDrop, handleDragOver, handleDragLeave, removeStagedFile,
      checkJobStatuses;
    walk;
    first [ apply sendMessage_appends
          | apply handleFileUpload_appends
          | apply poll_jobs_appends
          | appends ].
Qed.

#[local] Instance grows_refl : Reflexive grows.
Proof. intros s. unfold grows. reflexivity. Qed.

#[local] Instance grows_trans : Transitive grows.
Proof. intros s1 s2 s3. unfold grows. apply transitivity. Qed.

Lemma dispatch_grows (e : Event) (b : Browser) :
  replaces_log e = false ->
  Forall (task_ok appends_only) (pending (world b)) ->
  grows (state (world b)) (state (world (dispatch e b)))
  /\ Forall (task_ok appends_only) (pending (world (dispatch e b))).
Proof.
  intros He Hb. rewrite Loop.dispatch_world.
  assert (forall u s, appends_only u -> grows s (apply_update u s)) as Hstep.
  { intros u s Hu. apply Hu. }
  pose proof (handler_appends e b He) as Hh.
  destruct e; try discriminate He;
    try (split; [apply (run_state_rel apply_update appends_only grows Hstep _ Hh)
                |apply run_pending_ok; assumption]).
  - apply (deliver_ok apply_update appends_only grows); assumption.
  - split; [reflexivity|exact Hb].
Qed.

Lemma dispatch_all_grows (es : list Event) (b : Browser) :
  Forall (fun e => replaces_log e = false) es ->
  Forall (task_ok appends_only) (pending (world b)) ->
  grows (state (world b)) (state (world (dispatch_all es b))).
Proof.
  intros Hes. revert b. induction Hes as [|e es He _ IH]; intros b Hb; simpl.
  - reflexivity.
  - destruct (dispatch_grows e b He Hb) as [Hg Hp].
    etransitivity; [exact Hg|]. apply IH, Hp.
Qed.

Lemma dispatch_all_tasks_append (es : list Event) (b : Browser) :
  Forall (fun e => replaces_log e = false) es ->
  Forall (task_ok appends_only) (pending (world b)) ->
  Forall (task_ok appends_only) (pending (world (dispatch_all es b))).
Proof.
  intros Hes. revert b. induction Hes as [|e es He _ IH]; intros b Hb; simpl.
  - exact Hb.
  - apply IH. apply (dispatch_grows e b He Hb).
Qed.

(** X13.  As long as the user neither starts, opens nor deletes a conversation,
    the log only grows: whatever else happens (sends, uploads, poll rounds,
    responses and failures in any order), the log at any moment is a prefix
    of the log at any later moment.  No message is ever changed, removed or
    reordered. *)
Theorem log_only_grows (t : Timestamp) (es1 es2 : list Event) :
  Forall (fun e => replaces_log e = false) (es1 ++ es2) ->
  messages (state (world (dispatch_all es1 (mount t))))
  `prefix_of` messages (state (world (dispatch_all (es1 ++ es2) (mount t)))).
Proof.
  intros Hes. apply Forall_app in Hes as [H1 H2].
  unfold dispatch_all. rewrite foldl_app.
  apply (dispatch_all_grows es2 _ H2).
  apply dispatch_all_tasks_append; [exact H1|].
  simpl. constructor; [|constructor].
  intros res. simpl. walk; appends.
Qed.

Lemma log_only_grows_witness :
  messages (state (world (dispatch_all
     [ Response 0 (Ok (conversations_data []));
       ChangeInput "hello"; ClickSend ] (mount Sample.t0))))
  `prefix_of`
  messages (state (world (dispatch_all
     ([ Response 0 (Ok (conversations_data []));
        ChangeInput "hello"; ClickSend ]
      ++ [ Response 0 (Err Sample.network_down) ]) (mount Sample.t0)))).
Proof.
  apply log_only_grows. repeat constructor.
Defined.

End Log.

(** ** Uploading and staging files (App.js) *)

Module Uploading.
Import App.

(** X14.  [handleFileUpload].  The upload is posted with the conversation id of
    the render, if it has one.  A response with file names adds one staged
    file per name, after those already staged, and makes the conversation id
    of the response the active one.  A failure, or a response without file
    names, adds exactly one error-flagged message and leaves the staged files
    and the active id alone.  The loading flag and the log of a successful
    upload are never touched. *)
Theorem handleFileUpload_outcome (st : State) (files : list string)
    (w : World State Update) :
  let w1 := run apply_update (handleFileUpload st files) w in
  state w1 = state w
  /\ sent w1
     = sent w ++ [PostUpload files
                    (if Js.truthy_opt (currentConversationId st)
                     then currentConversationId st else None)]
  /\ (forall d names, data_file_names d = Some names ->
        let s2 := state (deliver_last apply_update (Ok d) w1) in
        uploadedFiles s2
        = uploadedFiles (state w) ++ map (uploaded_file (clock w)) names
        /\ currentConversationId s2 = data_conversation_id d
        /\ messages s2 = messages (state w)
        /\ isLoading s2 = isLoading (state w))
  /\ (forall d, data_file_names d = None ->
        let s2 := state (deliver_last apply_update (Ok d) w1) in
        uploadedFiles s2 = uploadedFiles (state w)
        /\ currentConversationId s2 = currentConversationId (state w)
        /\ messages s2
           = messages (state w)
             ++ [error_message "Error uploading files. Please try again." (clock w)]
        /\ isLoading s2 = isLoading (state w))
  /\ (forall e,
        let s2 := state (deliver_last apply_update (Err e) w1) in
        uploadedFiles s2 = uploadedFiles (state w)
        /\ currentConversationId s2 = currentConversationId (state w)
        /\ messages s2
           = messages (state w) ++ [error_message (upload_error_text e) (clock w)]
        /\ isLoading s2 = isLoading (state w)).
Proof.
  simpl. split; [reflexivity|]. split; [reflexivity|]. split; [|split].
  - intros d names Hd. rewrite deliver_last_snoc. simpl. rewrite Hd. simpl.
    repeat split.
  - intros d Hd. rewrite deliver_last_snoc. simpl. rewrite Hd. simpl.
    repeat split.
  - intros e. rewrite deliver_last_snoc. simpl. repeat split.
Qed.

(** The text chosen for a status without detail, and the statuses below 414
    checked one by one. *)
Lemma other_status_text (n : nat) :
  n <> 413 -> n <> 400 ->
  match Some n with
  | Some 413 => "File too large. Please upload files smaller than 100MB."
  | Some 400 =>
      "Invalid file format. Please upload CSV, Excel, JSON, TXT, or image files."
  | _ => "Error uploading files. Please try again."
  end = "Error uploading files. Please try again.".
Proof.
  intros H413 H400.
  destruct (le_lt_dec 414 n) as [Hbig|Hsmall].
  - replace n with (414 + (n - 414)) by lia. reflexivity.
  - assert (forallb
              (fun k =>
                 (k =? 413) || (k =? 400)
                 || String.eqb
                      match Some k with
                      | Some 413 =>
                          "File too large. Please upload files smaller than 100MB."
                      | Some 400 =>
                          "Invalid file format. Please upload CSV, Excel, JSON, TXT, or image files."
                      | _ => "Error uploading files. Please try again."
                      end "Error uploading files. Please try again.")
              (seq 0 414) = true) as Hall by reflexivity.
    rewrite forallb_forall in Hall.
    specialize (Hall n ltac:(apply in_seq; lia)).
    apply orb_true_iff in Hall as [Hall|Hall].
    + apply orb_true_iff in Hall as [Hall|Hall]; apply Nat.eqb_eq in Hall; lia.
    + apply String.eqb_eq in Hall. exact Hall.
Qed.

(** X15.  The text of the error message of a failed upload: the detail of the
    server when it sends a non-empty one, whatever the status; without
    detail, the "too large" text for status 413, the "invalid format" text
    for status 400, and the general text for every other failure. *)
Theorem upload_error_text_cases (e : HttpError) :
  (forall detail, err_detail e = Some detail -> detail <> "" ->
     upload_error_text e = "Upload failed: " +:+ detail)
  /\ (Js.truthy_opt (err_detail e) = false ->
      (err_status e = Some 413 ->
       upload_error_text e
       = "File too large. Please upload files smaller than 100MB.")
      /\ (err_status e = Some 400 ->
          upload_error_text e
          = "Invalid file format. Please upload CSV, Excel, JSON, TXT, or image files.")
      /\ (err_status e <> Some 413 -> err_status e <> Some 400 ->
          upload_error_text e = "Error uploading files. Please try again.")).
Proof.
  unfold upload_error_text. split.
  - intros detail Hd Hne. rewrite Hd. simpl.
    apply Sending.truthy_true in Hne. rewrite Hne. reflexivity.
  - intros Hd. rewrite Hd. split; [|split].
    + intros ->. reflexivity.
    + intros ->. reflexivity.
    + intros H413 H400. destruct (err_status e) as [n|]; [|reflexivity].
      apply other_status_text; congruence.
Qed.

(** X16.  Removing a staged file by its position: the file at that position
    leaves the list and the others keep their order; a position beyond the
    list changes nothing.  No request is sent. *)
Theorem removeStagedFile_outcome (index : nat) (w : World State Update) :
  let w' := run apply_update (removeStagedFile index) w in
  uploadedFiles (state w')
  = take index (uploadedFiles (state w)) ++ drop (S index) (uploadedFiles (state w))
  /\ (length (uploadedFiles (state w)) <= index ->
      uploadedFiles (state w') = uploadedFiles (state w))
  /\ (index < length (uploadedFiles (state w)) ->
      S (length (uploadedFiles (state w'))) = length (uploadedFiles (state w)))
  /\ sent w' = sent w /\ pending w' = pending w
  /\ messages (state w') = messages (state w).
Proof.
  simpl. split; [apply delete_take_drop|]. split; [|split].
  - intros Hi. rewrite delete_take_drop, take_ge, drop_ge by lia.
    apply app_nil_r.
  - intros Hi. rewrite length_delete.
    + lia.
    + apply lookup_lt_is_Some_2. exact Hi.
  - repeat split.
Qed.

End Uploading.

(** ** A round of the job poller (App.js) *)

Module PollRound.
Import App.

Lemma obj_get_set_other {V : Type} (k k' : string) (v : V) (o : JsObject V) :
  k' <> k -> obj_get k' (obj_set k v o) = obj_get k' o.
Proof.
  intros Hne. induction o as [|[k0 v0] o IH]; simpl.
  - apply String.eqb_neq in Hne. rewrite String.eqb_sym, Hne. reflexivity.
  - destruct (String.eqb k0 k) eqn:E; simpl.
    + apply String.eqb_eq in E. subst k0.
      assert (String.eqb k k' = false) as ->; [|reflexivity].
      apply String.eqb_neq. congruence.
    + destruct (String.eqb k0 k'); [reflexivity|exact IH].
Qed.

Lemma obj_get_delete_other {V : Type} (k k' : string) (o : JsObject V) :
  k' <> k -> obj_get k' (obj_delete k o) = obj_get k' o.
Proof.
  intros Hne. induction o as [|[k0 v0] o IH]; simpl; [reflexivity|].
  destruct (String.eqb k0 k) eqn:E; simpl.
  - apply String.eqb_eq in E. subst k0.
    assert (String.eqb k k' = false) as ->; [|exact IH].
    apply String.eqb_neq. congruence.
  - destruct (String.eqb k0 k'); [reflexivity|exact IH].
Qed.

(** After the status of a job has arrived, the round goes on with the other
    jobs in a world that differs in its state only. *)
Lemma on_job_status_continues (jobId : string) (k : Proc Update) (res : Result)
    (w : World State Update) :
  exists s',
    run apply_update (on_job_status jobId k res) w
    = run apply_update k
        {| state := s'; clock := clock w; pending := pending w; sent := sent w |}
    /\ (forall k', k' <> jobId ->
          obj_get k' (activeJobs s') = obj_get k' (activeJobs (state w)))
    /\ (forall e, res = Err e -> s' = state w).
Proof.
  unfold on_job_status, when. destruct res as [d|e].
  - destruct (status_is (data_job d) "completed"
              && Js.truthy_opt (response (data_job d)));
      destruct (status_is (data_job d) "error"); simpl;
      eexists; (split; [reflexivity|]); (split; [|discriminate]);
      intros k' Hk'; simpl; unfold remove_job;
      rewrite ?obj_get_delete_other, ?obj_get_set_other by exact Hk';
      rewrite ?obj_get_delete_other, ?obj_get_set_other by exact Hk';
      reflexivity.
  - exists (state w). split; [destruct w; reflexivity|].
    split; [reflexivity|]. reflexivity.
Qed.

(** X17.  The status response of one job never changes the entry of another job,
    whatever the response is: merged, retired on completion, retired on
    error, or failed. *)
Theorem status_response_leaves_other_jobs (jobId other : string)
    (rest : list string) (res : Result) (w : World State Update) :
  other <> jobId ->
  obj_get other
    (activeJobs (state (run apply_update (on_job_status jobId (poll_jobs rest) res) w)))
  = obj_get other (activeJobs (state w)).
Proof.
  intros Hne.
  destruct (on_job_status_continues jobId (poll_jobs rest) res w)
    as (s' & -> & Hother & _).
  rewrite Poller.poll_jobs_state. simpl. apply Hother, Hne.
Qed.

Lemma status_response_leaves_other_jobs_witness :
  obj_get "j2"
    (activeJobs (state (run apply_update
       (on_job_status "j1" (poll_jobs [])
          (Ok (job_status_data Sample.done_job)))
       (Sample.world_of Sample.two_jobs))))
  = obj_get "j2" (activeJobs (state (Sample.world_of Sample.two_jobs))).
Proof.
  apply status_response_leaves_other_jobs. discriminate.
Defined.




End PollRound.

(** ** The interval and its closure (App.js) *)

Module TimerFacts.
Import App.

Lemma render_fresh (b : Browser) :
  timers_tracked b ->
  (timers b = [] -> pollInterval b = None) ->
  activeJobs_id (state (world b)) <> effect_jobs_id b ->
  timer_fresh (render b).
Proof.
  intros Ht Hnone Hne. unfold render.
  destruct (Nat.eqb_spec (activeJobs_id (state (world b))) (effect_jobs_id b));
    [contradiction|].
  destruct (PollTimer.cleanup_clears b Ht) as (Hc & Hnx & Hw & Hp).
  unfold poll_effect. rewrite Hw, Hc, Hnx, Hp.
  destruct (0 <? length (Object_keys (activeJobs (state (world b))))).
  - split; simpl.
    + intros id snapshot Hin. apply list_elem_of_singleton in Hin.
      injection Hin as -> ->. split; reflexivity.
    + discriminate.
  - destruct (ref_truthy (pollInterval b)) eqn:Hr; split; simpl.
    + rewrite ?Hc. intros id snapshot Hin. inversion Hin.
    + reflexivity.
    + rewrite ?Hc. intros id snapshot Hin. inversion Hin.
    + intros _. rewrite ?Hp.
      destruct Ht as [_ [Hnil|(id & snapshot & _ & Hpi & Hid)]].
      * apply Hnone, Hnil.
      * rewrite Hpi in Hr. simpl in Hr.
        destruct (Nat.eqb_spec id 0); [lia|discriminate].
Qed.

Lemma dispatch_fresh (e : Event) (b : Browser) :
  timer_inv b -> timer_fresh b ->
  timer_fresh (dispatch e b).
Proof.
  intros (Hid & Ht & Hiff) [Hsnap Hnone]. unfold dispatch.
  set (w' := match e with
             | Response i res => deliver apply_update i res (world b)
             | ClockAdvances t => advance t (world b)
             | _ => run apply_update (handler e b) (world b)
             end).
  assert (jobs_stable (state (world b)) (state w')) as [Hle Heq].
  { subst w'. destruct e; try apply PollTimer.run_jobs_stable.
    - apply PollTimer.deliver_jobs_stable.
    - apply PollTimer.jobs_stable_refl. }
  destruct (decide (activeJobs_id (state w') = effect_jobs_id b)) as [E|E].
  - rewrite PollTimer.render_keeps by exact E.
    split; simpl.
    + intros id snapshot Hin. destruct (Hsnap id snapshot Hin) as [Hs Hp].
      split; [|exact Hp]. rewrite Hs. apply Heq. congruence.
    + exact Hnone.
  - apply render_fresh; simpl; assumption.
Qed.

Lemma mount_fresh (t : Timestamp) : timer_fresh (mount t).
Proof.
  split; simpl.
  - intros id snapshot Hin. inversion Hin.
  - reflexivity.
Qed.

Lemma dispatch_all_fresh (es : list Event) (b : Browser) :
  timer_inv b -> timer_fresh b ->
  timer_inv (dispatch_all es b) /\ timer_fresh (dispatch_all es b).
Proof.
  revert b. induction es as [|e es IH]; intros b Hi Hf; simpl; [auto|].
  apply IH; [apply PollTimer.dispatch_inv, Hi|apply dispatch_fresh; assumption].
Qed.

(** X19.  The interval never polls a stale map.  In every state the component can
    reach: the interval that is set, if any, has its id in
    [pollInterval.current] and calls the [checkJobStatuses] of a render whose
    job map is the current one, so that a tick requests the status of the
    jobs tracked now; when no job is tracked the ref is [null]; and the id
    of an interval that has been cleared does nothing. *)
Theorem interval_polls_current_jobs (t : Timestamp) (es : list Event) :
  let b := dispatch_all es (mount t) in
  (forall id snapshot, (id, snapshot) ∈ timers b ->
     pollInterval b = Some id
     /\ activeJobs snapshot = activeJobs (state (world b))
     /\ handler (IntervalFires id) b = checkJobStatuses (state (world b)))
  /\ (activeJobs (state (world b)) = [] -> pollInterval b = None)
  /\ (forall id, (forall snapshot, (id, snapshot) ∉ timers b) ->
        handler (IntervalFires id) b = Done).
Proof.
  intros b.
  destruct (dispatch_all_fresh es (mount t) (PollTimer.mount_inv t) (mount_fresh t))
    as [(_ & Ht & Hiff) [Hsnap Hnone]]. fold b in Ht, Hiff, Hsnap, Hnone.
  split; [|split].
  - intros id snapshot Hin. destruct (Hsnap id snapshot Hin) as [Hs Hp].
    split; [exact Hp|]. split; [exact Hs|].
    destruct Ht as [_ [Hnil|(id' & snapshot' & Hts & _)]].
    + rewrite Hnil in Hin. inversion Hin.
    + rewrite Hts in Hin. apply list_elem_of_singleton in Hin.
      injection Hin as -> ->. simpl. rewrite Hts. simpl.
      destruct (decide (id' = id')); [|congruence]. simpl.
      unfold checkJobStatuses. rewrite <- Hs.
      rewrite Hts in Hsnap. reflexivity.
  - intros Hjobs. apply Hnone.
    destruct (timers b) as [|x l]; [reflexivity|].
    exfalso. exact (proj1 Hiff ltac:(discriminate) Hjobs).
  - intros id Hid. simpl.
    destruct (list_find (fun t0 => t0.1 = id) (timers b)) as [[i [id' snapshot]]|] eqn:Hf;
      [|reflexivity].
    apply list_find_Some in Hf as (Hl & Heq & _). simpl in Heq. subst id'.
    exfalso. apply (Hid snapshot). eapply list_elem_of_lookup_2. exact Hl.
Qed.

(** X20.  A status response that is neither a completion with text nor an error
    is merged into the map under its job id, also when the job is not in the
    map any more (the conversation was reset while the request was in
    flight): the job is tracked again, no message is added, and the poll
    timer runs. *)
Theorem late_status_revives_job (t : Timestamp) (es : list Event) (i : nat)
    (jobId : string) (rest : list string) (d : Data) :
  let b := dispatch_all es (mount t) in
  pending (world b) !! i
  = Some {| task_request := GetJobStatus jobId;
            task_resume := on_job_status jobId (poll_jobs rest) |} ->
  status_is (data_job d) "completed" && Js.truthy_opt (response (data_job d))
  = false ->
  status_is (data_job d) "error" = false ->
  let b' := dispatch (Response i (Ok d)) b in
  obj_get jobId (activeJobs (state (world b'))) = Some (data_job d)
  /\ messages (state (world b')) = messages (state (world b))
  /\ length (timers b') = 1.
Proof.
  intros b Hi Hc He b'.
  assert (timer_inv b') as (_ & [_ Ht] & Hiff).
  { subst b'. apply PollTimer.dispatch_inv. subst b.
    apply PollTimer.dispatch_all_inv, PollTimer.mount_inv. }
  assert (state (world b')
          = apply_update (SetActiveJobs (obj_set jobId (data_job d)))
              (state (world b))) as Hs.
  { subst b'. rewrite Loop.dispatch_world. unfold deliver. rewrite Hi.
    cbn [task_resume]. unfold on_job_status, when. rewrite Hc, He.
    cbn [run state]. rewrite Poller.poll_jobs_state. reflexivity. }
  rewrite Hs in *. simpl in *. split; [apply obj_get_set|].
  split; [reflexivity|].
  destruct Ht as [Hnil|(id & snapshot & -> & _)]; [|reflexivity].
  exfalso. apply Hiff; [|exact Hnil]. intros Hx.
  pose proof (obj_get_set jobId (data_job d) (activeJobs (state (world b)))) as Hg.
  rewrite Hx in Hg. discriminate.
Qed.

Lemma late_status_revives_job_witness :
  let b := dispatch_all Sample.reset_while_polling (mount Sample.t0) in
  let b' := dispatch (Response 0 (Ok (job_status_data Sample.running_job))) b in
  obj_get "j1" (activeJobs (state (world b')))
  = Some (data_job (job_status_data Sample.running_job))
  /\ messages (state (world b')) = messages (state (world b))
  /\ length (timers b') = 1.
Proof.
  apply (late_status_revives_job Sample.t0 Sample.reset_while_polling 0 "j1" []
           (job_status_data Sample.running_job)); reflexivity.
Defined.

End TimerFacts.

(** ** The themed variant *)

Module ThemedFacts.
Import Themed.


(** X22.  The answer to the chat request in the themed variant.  The reply is
    added to the log.  The conversation id of the response is taken only
    when the render had none and the response has one, and only then the
    conversation list is refreshed; an active id is never replaced.  A
    failure adds an assistant message that carries no error flag.  The
    loading flag is lowered in each case. *)
Theorem themed_sendMessage_answer (st : State) (w : World State Update) :
  Js.trim (inputMessage st) <> "" -> isLoading st = false ->
  let w1 := run apply_update (sendMessage st) w in
  (forall d,
     let w2 := deliver_last apply_update (Ok d) w1 in
     messages (state w2)
     = messages (state w1) ++ [plain_message "assistant" (data_response d) (clock w)]
     /\ isLoading (state w2) = false
     /\ (Js.truthy_opt (currentConversationId st) = true ->
         currentConversationId (state w2) = currentConversationId (state w)
         /\ sent w2 = sent w1)
     /\ (Js.truthy_opt (currentConversationId st) = false ->
         Js.truthy_opt (data_conversation_id d) = true ->
         currentConversationId (state w2) = data_conversation_id d
         /\ sent w2 = sent w1 ++ [GetConversations])
     /\ (Js.truthy_opt (data_conversation_id d) = false ->
         currentConversationId (state w2) = currentConversationId (state w)
         /\ sent w2 = sent w1))
  /\ (forall e,
        let w2 := deliver_last apply_update (Err e) w1 in
        messages (state w2)
        = messages (state w1)
          ++ [plain_message "assistant" (Some send_error_text) (clock w)]
        /\ error (plain_message "assistant" (Some send_error_text) (clock w)) = false
        /\ isLoading (state w2) = false
        /\ currentConversationId (state w2) = currentConversationId (state w)
        /\ sent w2 = sent w1).
Proof.
  intros Hb Hl. unfold sendMessage.
  apply Sending.truthy_true in Hb. rewrite Hb, Hl. simpl. split.
  - intros d. rewrite deliver_last_snoc. simpl.
    destruct (Js.truthy_opt (currentConversationId st));
      destruct (Js.truthy_opt (data_conversation_id d)); simpl;
      repeat split; intros; try discriminate; reflexivity.
  - intros e. rewrite deliver_last_snoc. simpl. repeat split.
Qed.

Lemma themed_sendMessage_answer_witness :
  let w1 := run apply_update (sendMessage Sample.themed_typed)
              (Sample.themed_world_of Sample.themed_typed) in
  let w2 := deliver_last apply_update (Ok (chat_data "Hi." (Some "c9"))) w1 in
  Js.truthy_opt (currentConversationId Sample.themed_typed) = true
  /\ currentConversationId (state w2)
     = currentConversationId (state (Sample.themed_world_of Sample.themed_typed)).
Proof.
  split; [reflexivity|].
  pose proof (proj1 (themed_sendMessage_answer Sample.themed_typed
                       (Sample.themed_world_of Sample.themed_typed)
                       ltac:(discriminate) eq_refl)
                (chat_data "Hi." (Some "c9"))) as (_ & _ & H & _).
  exact (proj1 (H eq_refl)).
Defined.

(** X23.  [handleFileUpload] of the themed variant.  Without files nothing is
    sent.  Otherwise the files are posted with the conversation id of the
    render; the names of the response, if any, are added to the staged files
    as [{filename, uploadTime}]; the conversation id of the response is
    taken only when the render had none; and a failure leaves the whole
    state as it is: no message is added. *)
Theorem themed_handleFileUpload_outcome (st : State) (files : list string)
    (w : World State Update) :
  (files = [] -> run apply_update (handleFileUpload st files) w = w)
  /\ (files <> [] ->
      let w1 := run apply_update (handleFileUpload st files) w in
      state w1 = state w
      /\ sent w1 = sent w ++ [PostUpload files (currentConversationId st)]
      /\ (forall e, state (deliver_last apply_update (Err e) w1) = state w)
      /\ (forall d,
            let s2 := state (deliver_last apply_update (Ok d) w1) in
            uploadedFiles s2
            = uploadedFiles (state w)
              ++ map (uploaded_file (clock w)) (default [] (data_file_names d))
            /\ messages s2 = messages (state w)
            /\ (Js.truthy_opt (currentConversationId st) = true ->
                currentConversationId s2 = currentConversationId (state w))
            /\ (Js.truthy_opt (currentConversationId st) = false ->
                Js.truthy_opt (data_conversation_id d) = true ->
                currentConversationId s2 = data_conversation_id d))).
Proof.
  unfold handleFileUpload. split.
  - intros ->. reflexivity.
  - intros Hf. destruct files as [|f files]; [contradiction|]. simpl.
    split; [reflexivity|]. split; [reflexivity|]. split.
    + intros e. rewrite deliver_last_snoc. reflexivity.
    + intros d. rewrite deliver_last_snoc. simpl.
      destruct (Js.truthy_opt (currentConversationId st));
        destruct (Js.truthy_opt (data_conversation_id d)); simpl;
        repeat split; intros; try discriminate; reflexivity.
Qed.

(** X24.  [loadConversations] and [loadConversation] of the themed variant on
    failure.  A failing list request leaves the conversation list as it was.
    A failing message request leaves the log, the staged files and the
    active id as they were.  A failing file request, after the messages have
    arrived, leaves the staged files of the previous conversation in place
    while the log and the active id are those of the new one.  The loading
    flag of the load is lowered in each case. *)
Theorem themed_load_failures (st : State) (id : string) (w : World State Update)
    (e : HttpError) :
  loadingConversation st = false ->
  state (deliver_last apply_update (Err e) (run apply_update loadConversations w))
  = state w
  /\ (let s2 := state (deliver_last apply_update (Err e)
                         (run apply_update (loadConversation st id) w)) in
      messages s2 = messages (state w)
      /\ uploadedFiles s2 = uploadedFiles (state w)
      /\ currentConversationId s2 = currentConversationId (state w)
      /\ loadingConversation s2 = false)
  /\ (forall d,
        let s3 := state (deliver_last apply_update (Err e)
                           (deliver_last apply_update (Ok d)
                              (run apply_update (loadConversation st id) w))) in
        messages s3 = default [] (data_messages d)
        /\ currentConversationId s3 = Some id
        /\ uploadedFiles s3 = uploadedFiles (state w)
        /\ loadingConversation s3 = false).
Proof.
  intros Hflag. unfold loadConversation. rewrite Hflag. simpl.
  split; [rewrite deliver_last_snoc; reflexivity|]. split.
  - rewrite deliver_last_snoc. simpl. repeat split.
  - intros d. rewrite deliver_last_snoc. simpl.
    rewrite deliver_last_snoc. simpl. repeat split.
Qed.

Lemma themed_load_failures_witness :
  state (deliver_last apply_update (Err Sample.network_down)
           (run apply_update loadConversations
              (Sample.themed_world_of Sample.themed_typed)))
  = state (Sample.themed_world_of Sample.themed_typed).
Proof.
  exact (proj1 (themed_load_failures Sample.themed_typed "c2"
                  (Sample.themed_world_of Sample.themed_typed)
                  Sample.network_down eq_refl)).
Defined.

(** X25.  [deleteConversation] of the themed variant filters the conversation list
    of the render in which delete was clicked, not the current one: the list
    after a successful delete is that older list without the deleted id,
    whatever the list has become in between. *)
Theorem themed_deleteConversation_uses_render_list (st : State) (id : string)
    (w : World State Update) :
  let w1 := run apply_update (deleteConversation st id) w in
  (forall d,
     conversations (state (deliver_last apply_update (Ok d) w1))
     = filter (fun conv => negb (String.eqb (conv_id conv) id)) (conversations st))
  /\ (forall e, state (deliver_last apply_update (Err e) w1) = state w).
Proof.
  simpl. split.
  - intros d. rewrite deliver_last_snoc. simpl.
    destruct (Js.strict_eq (currentConversationId st) id); reflexivity.
  - intros e. rewrite deliver_last_snoc. reflexivity.
Qed.


(** X26.  The theme survives a reload.  Choosing a theme stores it, applies it to
    the document and closes the dialog; after a page load the stored theme
    is the current one again and is applied again.  A page that has stored
    no theme, or the empty name, comes up with the default theme. *)
Theorem theme_survives_reload (themeName : string) (sp : State * Page) :
  let sp1 := handleThemeChange themeName sp in
  currentTheme (fst sp1) = themeName
  /\ body_className (snd sp1) = "theme-" +:+ themeName
  /\ showThemeModal (fst sp1) = false
  /\ (themeName <> "" ->
       currentTheme (fst (reload (snd sp1))) = themeName
       /\ body_className (snd (reload (snd sp1))) = "theme-" +:+ themeName)
  /\ (forall p, Js.truthy_opt (chat_theme p) = false ->
       currentTheme (fst (reload p)) = "default"
       /\ body_className (snd (reload p)) = "theme-default").
Proof.
  simpl. repeat split.
  - unfold reload, restore_theme. simpl.
    apply Sending.truthy_true in H. rewrite H. reflexivity.
  - unfold reload, restore_theme, applyTheme. simpl.
    apply Sending.truthy_true in H. rewrite H. reflexivity.
  - unfold reload, restore_theme. simpl.
    destruct (chat_theme p) as [x|]; simpl in *; [rewrite H|]; reflexivity.
  - unfold reload, restore_theme. simpl.
    destruct (chat_theme p) as [x|]; simpl in *; [rewrite H|]; reflexivity.
Qed.

End ThemedFacts.

(** ** Texts: blanks, letter case and file types *)

Module Texts.
Import Js Chars.

Lemma trimStart_blank (s : string) : trimStart s = "" <-> is_blank s = true.
Proof.
  induction s as [|c s IH]; simpl; [tauto|].
  destruct (is_space c); simpl; [exact IH|]. split; discriminate.
Qed.

Lemma trimEnd_blank (s : string) : trimEnd s = "" <-> is_blank s = true.
Proof.
  induction s as [|c s IH]; simpl; [tauto|].
  destruct (trimEnd s) eqn:E.
  - destruct (is_space c); simpl.
    + split; [intros _; apply IH; reflexivity|reflexivity].
    + split; discriminate.
  - split; [discriminate|].
    intros H. apply andb_true_iff in H as [_ H]. apply IH in H. discriminate.
Qed.










Lemma lower_char_space (c : ascii) : is_space (lower_char c) = is_space c.
Proof. destruct c as [[] [] [] [] [] [] [] []]; reflexivity. Qed.




Lemma append_nil_l (s : string) : "" +:+ s = s.
Proof. reflexivity. Qed.








(** *** The dashboard test and blanks *)

Lemma toLowerCase_trimStart (s : string) :
  toLowerCase (trimStart s) = trimStart (toLowerCase s).
Proof.
  induction s as [|c s IH]; simpl; [reflexivity|].
  rewrite lower_char_space. destruct (is_space c); [exact IH|reflexivity].
Qed.

Lemma toLowerCase_trimEnd (s : string) :
  toLowerCase (trimEnd s) = trimEnd (toLowerCase s).
Proof.
  induction s as [|c s IH]; simpl; [reflexivity|].
  rewrite <- IH, lower_char_space.
  destruct (trimEnd s); simpl; [destruct (is_space c)|]; reflexivity.
Qed.

(** A text that starts with a character that is not white space is not a
    prefix of a text that starts with white space. *)
Lemma includes_trimStart (s sub : string) :
  match sub with
  | EmptyString => False
  | String a _ => is_space a = false
  end ->
  includes (trimStart s) sub = includes s sub.
Proof.
  intros Hsub. induction s as [|c s IH]; simpl; [reflexivity|].
  destruct (is_space c) eqn:E; [|reflexivity].
  rewrite IH. destruct sub as [|a sub]; [contradiction|]. simpl.
  destruct (ascii_dec a c) as [->|Hne]; [congruence|reflexivity].
Qed.

Lemma prefix_blank (sub bl : string) :
  ends_solid sub = true -> is_blank bl = true -> String.prefix sub bl = false.
Proof.
  revert bl. induction sub as [|a sub IH]; intros bl Hsub Hbl; [discriminate|].
  destruct bl as [|b bl]; [reflexivity|]. simpl.
  simpl in Hbl. apply andb_true_iff in Hbl as [Hb Hbl].
  destruct (ascii_dec a b) as [->|Hne]; [|reflexivity].
  destruct sub as [|a' sub].
  - simpl in Hsub. rewrite Hb in Hsub. discriminate.
  - apply IH; assumption.
Qed.

Lemma includes_blank (sub bl : string) :
  ends_solid sub = true -> is_blank bl = true -> includes bl sub = false.
Proof.
  intros Hsub. induction bl as [|b bl IH]; intros Hbl.
  - simpl. destruct sub; [discriminate|reflexivity].
  - cbn [includes]. rewrite (prefix_blank sub (String b bl) Hsub Hbl).
    simpl in Hbl. apply andb_true_iff in Hbl as [_ Hbl]. apply IH, Hbl.
Qed.

Lemma prefix_trimEnd (s sub : string) :
  ends_solid sub = true ->
  String.prefix sub (trimEnd s) = String.prefix sub s.
Proof.
  revert sub. induction s as [|c s IH]; intros sub Hsub; simpl; [reflexivity|].
  destruct (trimEnd s) as [|a t] eqn:E.
  - assert (is_blank s = true) as Hs by (apply trimEnd_blank; exact E).
    destruct sub as [|x sub]; [discriminate|].
    destruct (is_space c) eqn:Ec.
    + simpl. destruct (ascii_dec x c) as [->|Hne]; [|reflexivity].
      destruct sub as [|x' sub].
      * simpl in Hsub. rewrite Ec in Hsub. discriminate.
      * symmetry. apply prefix_blank; assumption.
    + simpl. destruct (ascii_dec x c) as [->|Hne]; [|reflexivity].
      destruct sub as [|x' sub]; [destruct s; reflexivity|].
      rewrite (prefix_blank (String x' sub) s Hsub Hs). reflexivity.
  - destruct sub as [|x sub]; [discriminate|]. simpl.
    destruct (ascii_dec x c) as [->|Hne]; [|reflexivity].
    destruct sub as [|x' sub]; [destruct s; reflexivity|].
    rewrite <- IH by exact Hsub. reflexivity.
Qed.

Lemma includes_trimEnd (s sub : string) :
  ends_solid sub = true ->
  includes (trimEnd s) sub = includes s sub.
Proof.
  intros Hsub. induction s as [|c s IH]; [reflexivity|].
  cbn [includes]. rewrite <- IH.
  rewrite <- (prefix_trimEnd (String c s) sub Hsub).
  simpl trimEnd. destruct (trimEnd s) as [|a t] eqn:E.
  - destruct (is_space c).
    + simpl. destruct sub; [discriminate|reflexivity].
    + cbn [includes]. reflexivity.
  - cbn [includes]. reflexivity.
Qed.

Lemma includes_trim_lower (s sub : string) :
  match sub with
  | EmptyString => False
  | String a _ => is_space a = false
  end ->
  ends_solid sub = true ->
  includes (toLowerCase (trim s)) sub = includes (toLowerCase s) sub.
Proof.
  intros H1 H2. unfold trim.
  rewrite toLowerCase_trimEnd, toLowerCase_trimStart.
  rewrite includes_trimEnd by exact H2. apply includes_trimStart, H1.
Qed.

(** X29.  The test that decides on the dashboard request gives the same answer on
    the text as typed and on the trimmed text: blanks around the text play
    no role. *)
Theorem dashboard_test_ignores_blanks (s : string) :
  App.looks_like_dashboard_request (trim s) = App.looks_like_dashboard_request s.
Proof.
  unfold App.looks_like_dashboard_request.
  rewrite !includes_trim_lower by reflexivity. reflexivity.
Qed.

End Texts.

(** ** Requests in flight and the loading flags (App.js) *)

Module InFlight.
Import App.

Ltac walk_requests :=
  repeat first
    [ match goal with
      | |- all_requests _ (match ?x with _ => _ end) => destruct x
      | |- all_requests _ (when ?c _ _) => unfold when
      end
    | apply ar_Done
    | apply ar_Do
    | apply ar_Now; intros ?
    | apply ar_Await; [split; reflexivity|intros ?]
    | apply ar_Fork ].

Ltac quiet_setters := walk; exact I.

Lemma count_tasks_app (p : Request -> bool) (l1 l2 : list (Task Update)) :
  count_tasks p (l1 ++ l2) = count_tasks p l1 + count_tasks p l2.
Proof. induction l1 as [|t l1 IH]; simpl; [reflexivity|]. rewrite IH. lia. Qed.

Lemma count_tasks_delete (p : Request -> bool) (l : list (Task Update))
    (i : nat) (t : Task Update) :
  l !! i = Some t ->
  count_tasks p (delete i l) + (if p (task_request t) then 1 else 0)
  = count_tasks p l.
Proof.
  revert i. induction l as [|t' l IH]; intros i Hi; [discriminate|].
  destruct i as [|i]; simpl in *.
  - injection Hi as ->. lia.
  - rewrite <- (IH i Hi). lia.
Qed.

Lemma known_quiet_task (r : Request) (k : Result -> Proc Update) :
  quiet_request r -> (forall res, quiet (k res)) ->
  known_task {| task_request := r; task_resume := k |}.
Proof.
  intros [Hs Hl] Hk. unfold known_task. simpl.
  destruct r; try discriminate; exact Hk.
Qed.

(** A quiet handler body keeps the flags, the counts and the shape of the
    suspended handlers. *)
Lemma quiet_run (p : Proc Update) :
  quiet p ->
  forall w : World State Update,
    Forall known_task (pending w) ->
    let w' := run apply_update p w in
    isLoading (state w') = isLoading (state w)
    /\ loadingConversation (state w') = loadingConversation (state w)
    /\ Forall known_task (pending w')
    /\ count_tasks is_send_request (pending w')
       = count_tasks is_send_request (pending w)
    /\ count_tasks is_load_request (pending w')
       = count_tasks is_load_request (pending w).
Proof.
  induction p as [|u k IH|k IH|r k IH|p IHp k IHk]; intros [Hu Hr] w Hw; simpl.
  - auto.
  - inversion Hu as [|u' k' Hq Hk| | |]; subst.
    inversion Hr as [|u' k' Hk'| | |]; subst.
    destruct (IH (conj Hk Hk')
                {| state := apply_update u (state w); clock := clock w;
                   pending := pending w; sent := sent w |} Hw)
      as (H1 & H2 & H3 & H4 & H5).
    simpl in *. rewrite H1, H2.
    repeat split; try assumption; destruct u; try contradiction; reflexivity.
  - inversion Hu as [| |k' Hk| |]; subst.
    inversion Hr as [| |k' Hk'| |]; subst.
    apply IH; [split|]; auto.
  - inversion Hu as [| | |r' k' Hk|]; subst.
    inversion Hr as [| | |r' k' Hq Hk'|]; subst.
    repeat split; try reflexivity.
    + apply Forall_app. split; [exact Hw|]. constructor; [|constructor].
      apply known_quiet_task; [exact Hq|]. intros res. split; auto.
    + rewrite count_tasks_app. simpl. destruct Hq as [-> _]. lia.
    + rewrite count_tasks_app. simpl. destruct Hq as [_ ->]. lia.
  - inversion Hu as [| | | |p' k' Hp Hk]; subst.
    inversion Hr as [| | | |p' k' Hp' Hk']; subst.
    destruct (IHp (conj Hp Hp') w Hw) as (H1 & H2 & H3 & H4 & H5).
    destruct (IHk (conj Hk Hk') (run apply_update p w) H3)
      as (K1 & K2 & K3 & K4 & K5).
    cbn zeta in *. rewrite K1, K2, K4, K5. auto.
Qed.

Lemma loadConversations_quiet : quiet loadConversations.
Proof. split; unfold loadConversations; [quiet_setters|walk_requests]. Qed.

Lemma handleFileUpload_quiet (st : State) (files : list string) :
  quiet (handleFileUpload st files).
Proof. split; unfold handleFileUpload; [quiet_setters|walk_requests]. Qed.

Lemma deleteConversation_quiet (st : State) (id : string) :
  quiet (deleteConversation st id).
Proof.
  split; unfold deleteConversation, startNewConversation;
    [quiet_setters|walk_requests].
Qed.

Lemma poll_jobs_quiet (jobIds : list string) : quiet (poll_jobs jobIds).
Proof.
  induction jobIds as [|jobId rest [IHu IHr]]; split; simpl; try constructor.
  - intros res. unfold on_job_status. walk; try exact IHu; exact I.
  - split; reflexivity.
  - intros res. unfold on_job_status. walk_requests; exact IHr.
Qed.

Lemma handleDrop_quiet (st : State) (files : list string) :
  quiet (handleDrop st files).
Proof.
  unfold handleDrop. destruct (0 <? length files).
  - destruct (handleFileUpload_quiet st files) as [Hu Hr].
    split; constructor; auto. exact I.
  - split; [quiet_setters|walk_requests].
Qed.

(** The handlers of the events other than a send and the opening of a
    conversation. *)
Lemma handler_quiet (e : Event) (b : Browser) :
  match e with
  | ClickSend | PressEnter | ClickConversation _ => False
  | _ => True
  end ->
  quiet (handler e b).
Proof.
  intros He. destruct e; try contradiction; unfold handler.
  - unfold startNewConversation. split; [quiet_setters|walk_requests].
  - apply deleteConversation_quiet.
  - split; [quiet_setters|walk_requests].
  - destruct (isLoading _); [split; constructor|apply handleFileUpload_quiet].
  - apply handleDrop_quiet.
  - unfold handleDragOver. split; [quiet_setters|walk_requests].
  - unfold handleDragLeave. split; [quiet_setters|walk_requests].
  - unfold removeStagedFile. split; [quiet_setters|walk_requests].
  - split; [quiet_setters|walk_requests].
  - split; constructor.
  - destruct (list_find _ _) as [[? [? ?]]|];
      [apply poll_jobs_quiet|split; constructor].
  - split; constructor.
Qed.

Lemma known_conversations_task :
  known_task
    {| task_request := GetConversations;
       task_resume := fun res =>
         match res with
         | Ok d =>
             Do (SetConversations (fun _ => default [] (data_conversations d))) Done
         | Err _ => Do (SetConversations (fun _ => [])) Done
         end |}.
Proof.
  apply known_quiet_task; [split; reflexivity|].
  intros res. split; [quiet_setters|walk_requests].
Qed.

(** The stage of a send that follows the dashboard response. *)
Lemma after_dashboard_flight (d : Data) (res : Result) (w : World State Update) :
  Forall known_task (pending w) ->
  count_tasks is_send_request (pending w) = 0 ->
  count_tasks is_load_request (pending w)
  = (if loadingConversation (state w) then 1 else 0) ->
  flight_inv (run apply_update (after_dashboard d res) w).
Proof.
  intros Hk Hs Hl. unfold after_dashboard, when, flight_inv.
  destruct res as [dd|e]; [destruct (Js.truthy_opt (data_job_id dd))|]; simpl;
    rewrite ?count_tasks_app; simpl; rewrite ?Hs, ?Hl;
    (split; [|split; [lia|lia]]);
    try exact Hk;
    (apply Forall_app; split; [exact Hk|]);
    (constructor; [apply known_conversations_task|constructor]).
Qed.

(** The stage of a send that follows the chat response. *)
Lemma after_chat_flight (st : State) (res : Result) (w : World State Update) :
  Forall known_task (pending w) ->
  isLoading (state w) = true ->
  count_tasks is_send_request (pending w) = 0 ->
  count_tasks is_load_request (pending w)
  = (if loadingConversation (state w) then 1 else 0) ->
  flight_inv (run apply_update (after_chat st res) w).
Proof.
  intros Hk Hload Hs Hl. unfold after_chat, flight_inv.
  destruct res as [d|e]; simpl.
  - destruct ((0 <? length (uploadedFiles st))
              && looks_like_dashboard_request (Js.trim (inputMessage st))); simpl;
      rewrite ?count_tasks_app; simpl; rewrite ?Hs, ?Hl, ?Hload;
      (split; [|split; [lia|lia]]);
      (apply Forall_app; split; [exact Hk|]);
      (constructor; [|constructor]).
    + unfold known_task. simpl. exists d. reflexivity.
    + apply known_conversations_task.
  - rewrite Hs, Hl. split; [exact Hk|]. split; reflexivity.
Qed.

(** The stage of a load that follows the file response. *)
Lemma after_files_flight (res : Result) (w : World State Update) :
  Forall known_task (pending w) ->
  count_tasks is_load_request (pending w) = 0 ->
  count_tasks is_send_request (pending w)
  = (if isLoading (state w) then 1 else 0) ->
  flight_inv (run apply_update (after_files res) w).
Proof.
  intros Hk Hl Hs. unfold after_files, flight_inv.
  destruct res as [fd|e]; [destruct (data_files fd)|]; simpl;
    rewrite Hs, Hl; (split; [exact Hk|]); split; reflexivity.
Qed.

(** The stage of a load that follows the message response. *)
Lemma after_messages_flight (id : string) (res : Result) (w : World State Update) :
  Forall known_task (pending w) ->
  loadingConversation (state w) = true ->
  count_tasks is_load_request (pending w) = 0 ->
  count_tasks is_send_request (pending w)
  = (if isLoading (state w) then 1 else 0) ->
  flight_inv (run apply_update (after_messages id res) w).
Proof.
  intros Hk Hflag Hl Hs. unfold after_messages, flight_inv.
  destruct res as [d|e]; [destruct (data_messages d)|]; simpl;
    rewrite ?count_tasks_app; simpl; rewrite ?Hs, ?Hl, ?Hflag;
    (split; [|split; [lia|lia]]);
    try exact Hk.
  apply Forall_app. split; [exact Hk|]. constructor; [|constructor].
  unfold known_task. reflexivity.
Qed.

Lemma sendMessage_flight (w : World State Update) :
  flight_inv w ->
  isLoading (state w) = false ->
  flight_inv (run apply_update (sendMessage (state w)) w).
Proof.
  intros (Hk & Hs & Hl) Hload. unfold sendMessage, when.
  destruct (negb (Js.truthy (Js.trim (inputMessage (state w))))
            && (length (uploadedFiles (state w)) =? 0)).
  - split; [exact Hk|]. split; assumption.
  - rewrite Hload in Hs. unfold flight_inv.
    destruct (Js.truthy (Js.trim (inputMessage (state w)))); simpl;
      rewrite ?count_tasks_app; simpl; rewrite ?Hs, ?Hl;
      (split; [|split; [lia|lia]]);
      (apply Forall_app; split; [exact Hk|]);
      (constructor; [|constructor]);
      unfold known_task; simpl; exists (state w); reflexivity.
Qed.

Lemma loadConversation_flight (id : string) (w : World State Update) :
  flight_inv w ->
  flight_inv (run apply_update (loadConversation (state w) id) w).
Proof.
  intros (Hk & Hs & Hl). unfold loadConversation.
  destruct (loadingConversation (state w)) eqn:Hflag.
  - split; [exact Hk|]. simpl. rewrite Hflag. split; assumption.
  - unfold flight_inv. simpl. rewrite ?count_tasks_app. simpl. rewrite Hs, Hl.
    split; [|split; [lia|lia]].
    apply Forall_app. split; [exact Hk|]. constructor; [|constructor].
    unfold known_task. reflexivity.
Qed.

Lemma quiet_flight (p : Proc Update) (w : World State Update) :
  quiet p -> flight_inv w -> flight_inv (run apply_update p w).
Proof.
  intros Hq (Hk & Hs & Hl).
  destruct (quiet_run p Hq w Hk) as (H1 & H2 & H3 & H4 & H5).
  cbn zeta in *. unfold flight_inv. rewrite H1, H2, H4, H5. auto.
Qed.

Lemma deliver_flight (i : nat) (res : Result) (w : World State Update) :
  flight_inv w -> flight_inv (deliver apply_update i res w).
Proof.
  intros (Hk & Hs & Hl). unfold deliver.
  destruct (pending w !! i) as [t|] eqn:Hi; [|split; [exact Hk|split; assumption]].
  pose proof (Forall_lookup_1 _ _ _ _ Hk Hi) as Ht.
  pose proof (count_tasks_delete is_send_request _ _ _ Hi) as Hcs.
  pose proof (count_tasks_delete is_load_request _ _ _ Hi) as Hcl.
  pose proof (Forall_delete _ _ i Hk) as Hk'.
  rewrite Hs in Hcs. rewrite Hl in Hcl.
  unfold known_task in Ht. destruct t as [r k]. simpl in *.
  destruct r; simpl in *.
  - apply quiet_flight; [apply Ht|]. split; [exact Hk'|]. simpl. split; lia.
  - subst k. destruct (loadingConversation (state w)) eqn:Hflag; [|lia].
    apply after_messages_flight; simpl; auto; lia.
  - subst k. destruct (loadingConversation (state w)) eqn:Hflag; [|lia].
    apply after_files_flight; simpl; auto; lia.
  - apply quiet_flight; [apply Ht|]. split; [exact Hk'|]. simpl. split; lia.
  - destruct Ht as [st ->]. destruct (isLoading (state w)) eqn:Hload; [|lia].
    apply after_chat_flight; simpl; auto; try lia;
      destruct (loadingConversation (state w)); lia.
  - apply quiet_flight; [apply Ht|]. split; [exact Hk'|]. simpl. split; lia.
  - destruct Ht as [d ->]. destruct (isLoading (state w)) eqn:Hload; [|lia].
    apply after_dashboard_flight; simpl; auto; try lia;
      destruct (loadingConversation (state w)); lia.
  - apply quiet_flight; [apply Ht|]. split; [exact Hk'|]. simpl. split; lia.
Qed.

Lemma dispatch_flight (e : Event) (b : Browser) :
  flight_inv (world b) -> flight_inv (world (dispatch e b)).
Proof.
  intros Hb. rewrite Loop.dispatch_world.
  destruct e; try (apply quiet_flight; [apply handler_quiet; exact I|exact Hb]).
  - apply loadConversation_flight, Hb.
  - simpl. unfold send_button_enabled.
    destruct (isLoading (state (world b))) eqn:Hload; simpl; [exact Hb|].
    destruct (negb (Js.truthy (Js.trim (inputMessage (state (world b)))))
              && (length (uploadedFiles (state (world b))) =? 0)); simpl;
      [exact Hb|].
    apply sendMessage_flight; assumption.
  - simpl. unfold textarea_enabled.
    destruct (isLoading (state (world b))) eqn:Hload; simpl; [exact Hb|].
    apply sendMessage_flight; assumption.
  - apply deliver_flight, Hb.
  - exact Hb.
Qed.

Lemma mount_flight (t : Timestamp) : flight_inv (world (mount t)).
Proof.
  unfold flight_inv. simpl. split; [|split; reflexivity].
  constructor; [apply known_conversations_task|constructor].
Qed.

(** X30.  At most one send and at most one conversation load are in
    flight, and the loading flags tell which.  In every state the component
    reaches from its mount, by any sequence of user events, timer ticks and
    server answers, the number of chat and dashboard requests awaiting their
    answer is 1 when [isLoading] is set and 0 otherwise, and the number of
    conversation and file-list requests awaiting their answer is 1 when
    [loadingConversation] is set and 0 otherwise.  [sendMessage] itself
    does not test [isLoading]: the bound comes from the send button and the
    textarea, which are disabled while the flag is set.  Uploads,
    deletions, list refreshes and status polls are not counted; any number
    of them can be in flight. *)
Theorem loading_flags_count_requests (t : Timestamp) (es : list Event) :
  let w := world (dispatch_all es (mount t)) in
  count_tasks is_send_request (pending w)
  = (if isLoading (state w) then 1 else 0)
  /\ count_tasks is_load_request (pending w)
     = (if loadingConversation (state w) then 1 else 0).
Proof.
  assert (forall b, flight_inv (world b) ->
                    flight_inv (world (dispatch_all es b))) as Hall.
  { induction es as [|e es IH]; intros b Hb; simpl; [exact Hb|].
    apply IH, dispatch_flight, Hb. }
  destruct (Hall (mount t) (mount_flight t)) as (_ & Hs & Hl).
  split; assumption.
Qed.

End InFlight.
